(** * md2gemini: the pre- and post-processing around the gemtext renderer

    A shallow embedding of [md2gemini/__init__.py].  Python strings are
    sequences of Unicode code points; a code point is a number in [N] and a
    string is a list of them.  The string methods the module calls
    ([split], [join], [replace], [strip], [lstrip], [splitlines],
    [startswith], [in]) are written out with CPython's behaviour, the
    module's two helpers and [md2gemini] itself are translated on top of
    them.  Exceptions are values of [outcome]. *)

From Stdlib Require Import String Ascii.
From stdpp Require Import base numbers list.

Abbreviation char := N (only parsing).
Abbreviation str := (list N) (only parsing).

(** String literals of the source, as code points. *)
Definition lit (s : string) : str := N_of_ascii <$> list_ascii_of_string s.

Definition LF : char := 10%N.
Definition CR : char := 13%N.
Definition SP : char := 32%N.

(** ** Exceptions *)

Inductive exn := IndexError | ValueError.

Inductive outcome (A : Type) : Type :=
  | Ok (a : A)
  | Raise (e : exn)
  | OutOfFuel.
Arguments Ok {A} a.
Arguments Raise {A} e.
Arguments OutOfFuel {A}.

#[global] Instance outcome_ret : MRet outcome := @Ok.
#[global] Instance outcome_bind : MBind outcome := fun A B f m =>
  match m with
  | Ok a => f a
  | Raise e => Raise e
  | OutOfFuel => OutOfFuel
  end.

(** [l[i]] for a non-negative index. *)
Definition index {A} (l : list A) (i : nat) : outcome A :=
  match l !! i with
  | Some x => Ok x
  | None => Raise IndexError
  end.

(** ** Python's [str] methods *)
Module Py.

(** [s.startswith(p)] *)
Fixpoint startswith (p s : str) : bool :=
  match p, s with
  | [], _ => true
  | _ :: _, [] => false
  | a :: p', b :: s' => (a =? b)%N && startswith p' s'
  end.

(** [sub in s] *)
Fixpoint contains (sub s : str) : bool :=
  startswith sub s ||
  match s with
  | [] => false
  | _ :: s' => contains sub s'
  end.

(** Puts a character in front of the piece being read. *)
Definition cons_head (c : char) (ps : list str) : list str :=
  match ps with
  | p :: ps' => (c :: p) :: ps'
  | [] => [[c]]
  end.

(** The scan of [s.split(sep)] for a non-empty [sep]: leftmost matches,
    never overlapping; [skip] counts the characters of the separator just
    matched that are still to be passed over. *)
Fixpoint split_go (sep : str) (skip : nat) (s : str) : list str :=
  match s with
  | [] => [[]]
  | c :: s' =>
      match skip with
      | S k => split_go sep k s'
      | O =>
          if startswith sep s
          then [] :: split_go sep (length sep - 1) s'
          else cons_head c (split_go sep 0 s')
      end
  end.

(** [s.split(sep)]; an empty separator is a [ValueError]. *)
Definition split (s sep : str) : outcome (list str) :=
  match sep with
  | [] => Raise ValueError
  | _ => Ok (split_go sep 0 s)
  end.

(** [sep.join(l)] *)
Fixpoint join (sep : str) (l : list str) : str :=
  match l with
  | [] => []
  | [x] => x
  | x :: l' => x ++ sep ++ join sep l'
  end.

Fixpoint replace_go (old new : str) (skip : nat) (s : str) : str :=
  match s with
  | [] => []
  | c :: s' =>
      match skip with
      | S k => replace_go old new k s'
      | O =>
          if startswith old s
          then new ++ replace_go old new (length old - 1) s'
          else c :: replace_go old new 0 s'
      end
  end.

(** [s.replace(old, new)]: every leftmost non-overlapping occurrence, in one
    pass; an empty [old] puts [new] around every character. *)
Definition replace (old new s : str) : str :=
  match old with
  | [] => new ++ flat_map (fun c => c :: new) s
  | _ => replace_go old new 0 s
  end.

Fixpoint count_go (sub : str) (skip : nat) (s : str) : nat :=
  match s with
  | [] => 0
  | c :: s' =>
      match skip with
      | S k => count_go sub k s'
      | O =>
          if startswith sub s
          then S (count_go sub (length sub - 1) s')
          else count_go sub 0 s'
      end
  end.

(** [s.count(sub)]: the occurrences that do not overlap, leftmost first. *)
Definition count (s sub : str) : nat :=
  match sub with
  | [] => length s + 1
  | _ => count_go sub 0 s
  end.

(** [c.isspace()]: the white space that [strip] and [lstrip] remove. *)
Definition isspace (c : char) : bool :=
  ((9 <=? c) && (c <=? 13) || (28 <=? c) && (c <=? 32) ||
   (c =? 133) || (c =? 160) || (c =? 5760) ||
   (8192 <=? c) && (c <=? 8202) || (c =? 8232) || (c =? 8233) ||
   (c =? 8239) || (c =? 8287) || (c =? 12288))%N.

(** [s.lstrip()] *)
Fixpoint lstrip (s : str) : str :=
  match s with
  | c :: s' => if isspace c then lstrip s' else s
  | [] => []
  end.

(** [s.rstrip()] *)
Definition rstrip (s : str) : str := reverse (lstrip (reverse s)).

(** [s.strip()] *)
Definition strip (s : str) : str := rstrip (lstrip s).

(** The line boundaries of [splitlines], [\r\n] apart. *)
Definition is_linebreak (c : char) : bool :=
  ((10 <=? c) && (c <=? 13) || (28 <=? c) && (c <=? 30) ||
   (c =? 133) || (c =? 8232) || (c =? 8233))%N.

Fixpoint splitlines_go (cur : str) (s : str) : list str :=
  match s with
  | [] => match cur with [] => [] | _ => [reverse cur] end
  | c :: s' =>
      if is_linebreak c then
        reverse cur ::
          match s' with
          | d :: s'' =>
              if (c =? CR)%N && (d =? LF)%N
              then splitlines_go [] s''
              else splitlines_go [] s'
          | [] => []
          end
      else splitlines_go (c :: cur) s'
  end.

(** [s.splitlines()]: no line for an empty tail after the last boundary. *)
Definition splitlines (s : str) : list str := splitlines_go [] s.

End Py.

(** ** The module *)

(** What [md2gemini] hands to the renderer besides the text. *)
Record options := {
  img_tag : str;
  indent : str;
  ascii_table : bool;
  links : str;
  plain : bool;
}.

Section md2gemini.

(** The constants imported from [.renderers]. *)
Variables NEWLINE PARAGRAPH_DELIM LINK_DELIM : str.

(** [__text_between(text, delim, n)] *)
Definition __text_between (text delim : str) (n : nat) : outcome str :=
  parts ← Py.split text delim;
  index parts (n + 1).

(** [__replace_between(text, delim, new_text, n)] *)
Definition __replace_between (text delim new_text : str) (n : nat) : outcome str :=
  parts ← Py.split text delim;
  let start := Py.join delim (take (n + 1) parts) in
  let end_ := Py.join delim (drop (n + 2) parts) in
  Ok (start ++ new_text ++ end_).

(** The body of the [while PARAGRAPH_DELIM in gemtext] loop. *)
Definition paragraph_step (gemtext : str) : outcome str :=
  between ← __text_between gemtext PARAGRAPH_DELIM 0;
  let pg := Py.strip between in
  let pg := Py.replace [CR; LF] [LF] pg in
  let pg := Py.replace [LF] [SP] pg in
  let pg := pg ++ NEWLINE ++ NEWLINE in
  __replace_between gemtext PARAGRAPH_DELIM pg 0.

(** The loop; [fuel] bounds the number of iterations. *)
Fixpoint resolve_paragraphs (fuel : nat) (gemtext : str) : outcome str :=
  if Py.contains PARAGRAPH_DELIM gemtext then
    match fuel with
    | O => OutOfFuel
    | S fuel' => gemtext' ← paragraph_step gemtext; resolve_paragraphs fuel' gemtext'
    end
  else Ok gemtext.

(** The lookahead [(?=\r\n|\n)] on the text right after a match. *)
Definition at_newline (s : str) : bool :=
  Py.startswith [CR; LF] s || Py.startswith [LF] s.

(** The scan of [re.sub] with the pattern
    ["((?<=\r\n)|(?<=\n)" + delim + ")|(" + delim + "(?=\r\n|\n))"] and the
    empty replacement, [delim] being literal text (no regex metacharacter).  The
    pattern has three alternatives: the empty match after [\r\n], [delim]
    after [\n], and [delim] before [\r\n] or [\n].  Replacing an empty
    match by the empty string changes nothing, and since Python 3.7 the
    search goes on at the same place for a match that is not empty; so the
    text removed is every [delim], leftmost first, that stands after [\n] or
    before a line break.  [prev] is the character before the place looked
    at, as the lookbehind sees it in the text being read. *)
Fixpoint sub_go (delim : str) (prev : option char) (skip : nat) (s : str) : str :=
  match s with
  | [] => []
  | c :: s' =>
      match skip with
      | S k => sub_go delim (Some c) k s'
      | O =>
          if Py.startswith delim s &&
             (bool_decide (prev = Some LF) || at_newline (drop (length delim) s))
          then sub_go delim (Some c) (length delim - 1) s'
          else c :: sub_go delim (Some c) 0 s'
      end
  end.

Definition re_sub_link_delims (delim s : str) : str :=
  match delim with
  | [] => s
  | _ => sub_go delim None 0 s
  end.

(** The three statements on [LINK_DELIM]. *)
Definition resolve_links (gemtext : str) : str :=
  let gemtext := Py.replace (LINK_DELIM ++ LINK_DELIM) LINK_DELIM gemtext in
  let gemtext := re_sub_link_delims LINK_DELIM gemtext in
  Py.replace LINK_DELIM NEWLINE gemtext.

(** [for i, line in enumerate(gemlines)]: the list iterator reads
    [gemlines[i]] from the list as it is when the iteration comes to [i],
    so a line stripped by the iteration before is seen stripped; it stops
    at the first index out of the list.  [n] bounds the iterations and
    [length] is the local of that name. *)
Fixpoint strip_after_links (n i length : nat) (pre : bool) (gemlines : list str)
    : outcome (list str) :=
  match n with
  | O => Ok gemlines
  | S n' =>
      match gemlines !! i with
      | None => Ok gemlines
      | Some line =>
          if Py.startswith (lit "```") line then
            strip_after_links n' (S i) length (negb pre) gemlines
          else if (Z.of_nat i + 1 <? Z.of_nat length - 1)%Z &&
                  Py.startswith (lit "=>") line && negb pre then
            next ← index gemlines (i + 1);
            strip_after_links n' (S i) length pre (<[i + 1 := Py.lstrip next]> gemlines)
          else strip_after_links n' (S i) length pre gemlines
      end
  end.

(** [# Process footnotes if at-end was used]; [footnotes] is what
    [renderer._render_footnotes()] returns. *)
Definition add_footnotes (links footnotes gemtext : str) : str :=
  if bool_decide (links = lit "at-end")
  then gemtext ++ NEWLINE ++ footnotes ++ NEWLINE
  else gemtext.

(** [# Remove left whitespace in the lines after links], to the end. *)
Definition clean_lines (gemtext : str) : outcome str :=
  let gemlines := Py.splitlines gemtext in
  final ← index gemlines (length gemlines - 1);
  let gemlines :=
    if bool_decide (final = []) then take (length gemlines - 1) gemlines else gemlines in
  let length := length gemlines in
  gemlines ← strip_after_links length 0 length false gemlines;
  Ok (Py.join NEWLINE gemlines).

(** The part of [md2gemini] under [# Post processing]. *)
Definition postprocess (fuel : nat) (links : str) (footnotes gemtext : str) : outcome str :=
  gemtext ← resolve_paragraphs fuel gemtext;
  let gemtext := add_footnotes links footnotes gemtext in
  let gemtext := resolve_links gemtext in
  clean_lines gemtext.

(** The [for i, line in enumerate(lines[1:])] loop: [md_lines] when it ends,
    [rest] being the lines still to see and [i] the index of the first. *)
Fixpoint front_matter_end (frontmatter jekyll : bool) (lines : list str) (i : nat)
    (rest : list str) : list str :=
  match rest with
  | [] => []
  | line :: rest' =>
      if (frontmatter || jekyll) && bool_decide (line = lit "---") ||
         frontmatter && bool_decide (line = lit "+++")
      then drop (i + 2) lines
      else front_matter_end frontmatter jekyll lines (S i) rest'
  end.

(** The part of [md2gemini] under [# Pre processing]: the text given to the
    renderer. *)
Definition preprocess (frontmatter jekyll : bool) (markdown : str) : outcome str :=
  '(frontmatterExists, lines) ←
    (if frontmatter then
       let lines := Py.splitlines (Py.strip markdown) in
       first ← index lines 0;
       Ok (bool_decide (first = lit "---") || bool_decide (first = lit "+++"), lines)
     else if jekyll then
       let lines := Py.splitlines (Py.strip markdown) in
       first ← index lines 0;
       Ok (bool_decide (first = lit "---"), lines)
     else Ok (false, []));
  if frontmatterExists : bool then
    let md_lines := front_matter_end frontmatter jekyll lines 0 (drop 1 lines) in
    if bool_decide (md_lines ≠ []) then Ok (Py.join [LF] md_lines) else Ok markdown
  else Ok markdown.

(** The renderer: the text [gem(markdown)] returns, and the text
    [renderer._render_footnotes()] returns after it. *)
Variable gem : options → str → str.
Variable _render_footnotes : options → str → str.

Definition md2gemini (fuel : nat) (markdown : str) (opts : options)
    (frontmatter jekyll : bool) : outcome str :=
  markdown ← preprocess frontmatter jekyll markdown;
  let gemtext := gem opts markdown in
  postprocess fuel (links opts) (_render_footnotes opts markdown) gemtext.

End md2gemini.

(** ** The wording of the specification *)
Module Spec.

(** The paragraph as the specification describes its resolution: the text
    between the markers with [\r\n] made [\n], every [\n] made a space, and
    two line breaks after it. *)
Definition paragraph (NEWLINE between : str) : str :=
  Py.replace [LF] [SP] (Py.replace [CR; LF] [LF] between) ++ NEWLINE ++ NEWLINE.

(** Whether the character at index [i] of [t] has [\n] right before it, or
    [\n] or [\r\n] right after it. *)
Definition at_line_break (t : str) (i : nat) : bool :=
  bool_decide (last (take i t) = Some LF) || at_newline (drop (S i) t).

(** What the character at index [i] of [t] leaves in the text once the link
    markers [ld] are resolved. *)
Definition link_output (NEWLINE : str) (ld : char) (t : str) (i : nat) : str :=
  match t !! i with
  | None => []
  | Some c =>
      if (c =? ld)%N
      then (if at_line_break t i then [] else NEWLINE)
      else [c]
  end.

Definition links_resolved (NEWLINE : str) (ld : char) (t : str) : str :=
  flat_map (link_output NEWLINE ld t) (seq 0 (length t)).

End Spec.

(** ** Values for the examples *)
Module Sample.

(** Modelled from the spec: the three marker strings of the [renderers]
    module, which is not among the sources.  The line marker is a line
    break, here [\r\n], the one the paragraph loop and the pattern of
    [re.sub] know besides [\n]; the paragraph and link markers are opaque
    tokens that no text has, here one control character each.  The
    properties below are proved for any values; these are for their
    instances. *)
Definition NEWLINE : str := [CR; LF].
Definition PARAGRAPH_DELIM : str := [2%N].
Definition LINK_DELIM : str := [3%N].

Definition opts (links : str) : options :=
  {| img_tag := lit "[IMG]"; indent := lit "  "; ascii_table := false;
     links := links; plain := false |}.

(** A renderer that returns the intermediate text [gemtext] for any
    document, and one with an empty footnote block. *)
Definition renders (gemtext : str) : options → str → str := fun _ _ => gemtext.
Definition no_footnotes : options → str → str := fun _ _ => [].

End Sample.

(** ** The file name of [__convert_file] *)

(** [os.path] on a POSIX system. *)
Module PosixPath.

Definition SLASH : char := 47%N.
Definition DOT : char := 46%N.

Fixpoint rfind_from (c : char) (i : Z) (s : str) : Z :=
  match s with
  | [] => -1
  | x :: s' =>
      let r := rfind_from c (i + 1) s' in
      if (0 <=? r)%Z then r else if (x =? c)%N then i else -1
  end.

(** [s.rfind(c)] for a string [c] of one character: the highest index, or
    [-1]. *)
Definition rfind (s : str) (c : char) : Z := rfind_from c 0 s.

(** [os.path.basename(p)] *)
Definition basename (p : str) : str :=
  let i := (rfind p SLASH + 1)%Z in
  drop (Z.to_nat i) p.

(** The loop of [_splitext] that skips the leading dots, on the characters
    from [filenameIndex] up to [dotIndex]: whether it comes to a character
    that is not a dot. *)
Fixpoint name_before_dot (chars : str) : bool :=
  match chars with
  | [] => false
  | x :: chars' => if negb (x =? DOT)%N then true else name_before_dot chars'
  end.

(** [os.path.splitext(p)] *)
Definition splitext (p : str) : str * str :=
  let sepIndex := rfind p SLASH in
  let dotIndex := rfind p DOT in
  if (sepIndex <? dotIndex)%Z &&
     name_before_dot (take (Z.to_nat dotIndex - Z.to_nat (sepIndex + 1))
                           (drop (Z.to_nat (sepIndex + 1)) p))
  then (take (Z.to_nat dotIndex) p, drop (Z.to_nat dotIndex) p)
  else (p, []).

End PosixPath.

(** [newfile] in [__convert_file]: the name of the file written with
    [--write], to be joined to [args.dir]. *)
Definition newfile (file : str) : str :=
  (PosixPath.splitext (PosixPath.basename file)).1 ++ lit ".gmi".

(** ** Shapes of texts and of lists of lines, for the statements *)
Module Shape.

(** A text of paragraphs between markers [pd]: each pair is the text before
    a paragraph and the paragraph. *)
Definition marked (pd : char) (pairs : list (str * str)) : str :=
  concat ((λ '(a, b), a ++ [pd] ++ b ++ [pd]) <$> pairs).

(** The same text with every paragraph resolved where it stands. *)
Definition resolved (NEWLINE : str) (pairs : list (str * str)) : str :=
  concat ((λ '(a, b),
    a ++ Py.replace [LF] [SP] (Py.replace [CR; LF] [LF] (Py.strip b)) ++
    NEWLINE ++ NEWLINE) <$> pairs).

(** [line.startswith("```")] *)
Definition is_fence (line : str) : bool := Py.startswith (lit "```") line.

(** [line.startswith("=>")] *)
Definition is_link (line : str) : bool := Py.startswith (lit "=>") line.

(** A list of lines cut into runs of lines outside any preformatted region
    and preformatted regions with their two fence lines. *)
Inductive segment :=
  | Plain (lines : list str)
  | Fenced (opening : str) (body : list str) (closing : str).

Definition segment_lines (seg : segment) : list str :=
  match seg with
  | Plain lines => lines
  | Fenced opening body closing => opening :: body ++ [closing]
  end.

Definition lines_of (segs : list segment) : list str :=
  concat (segment_lines <$> segs).

(** Outside the regions no line is a fence line, also with its leading
    white space taken off; a region has a fence line at both ends and none
    between them. *)
Definition well_formed (seg : segment) : Prop :=
  match seg with
  | Plain lines => Forall (λ line, is_fence (Py.lstrip line) = false) lines
  | Fenced opening body closing =>
      is_fence opening = true ∧ Forall (λ line, is_fence line = false) body ∧
      is_fence closing = true
  end.

(** The same region, or a run of as many lines. *)
Definition same_shape (seg seg' : segment) : Prop :=
  match seg with
  | Plain lines => ∃ lines', seg' = Plain lines' ∧ length lines' = length lines
  | Fenced _ _ _ => seg' = seg
  end.

(** The pass over the lines read as one left-to-right reading without
    update in place: [pending] says that the line before asked for this
    line to be stripped. *)
Fixpoint strip_pass (length : nat) (pending pre : bool) (i : nat) (lines : list str)
    : list str :=
  match lines with
  | [] => []
  | line :: rest =>
      let line := if pending then Py.lstrip line else line in
      if is_fence line then
        line :: strip_pass length false (negb pre) (S i) rest
      else
        line :: strip_pass length
                  ((Z.of_nat i + 1 <? Z.of_nat length - 1)%Z && is_link line && negb pre)
                  pre (S i) rest
  end.

End Shape.

(** * Properties *)

(** ** The string methods on examples *)

Example split_ex : Py.split (lit "a,b,,c") (lit ",") = Ok [lit "a"; lit "b"; []; lit "c"].
Proof. reflexivity. Qed.
Example split_ex2 : Py.split (lit "aaa") (lit "aa") = Ok [[]; lit "a"].
Proof. reflexivity. Qed.
Example replace_ex : Py.replace (lit "xx") (lit "x") (lit "axxxb") = lit "axxb".
Proof. reflexivity. Qed.
Example splitlines_ex : Py.splitlines [97; 13; 10; 10; 98; 13]%N = [[97]; []; [98]]%N.
Proof. reflexivity. Qed.
Example strip_ex : Py.strip (lit "  a b  ") = lit "a b".
Proof. reflexivity. Qed.


(** ** Which characters a method can put into its result *)

Lemma elem_of_replace_go x old new s skip :
  x ∈ Py.replace_go old new skip s → x ∈ s ∨ x ∈ new.
Proof.
  revert skip. induction s as [|c s IH]; intros skip; simpl.
  - intros H. by left.
  - destruct skip as [|k].
    + destruct (Py.startswith old (c :: s)).
      * rewrite elem_of_app. intros [H|H]; [by right|].
        destruct (IH _ H); [left; by constructor | by right].
      * rewrite elem_of_cons. intros [->|H]; [left; by constructor|].
        destruct (IH _ H); [left; by constructor | by right].
    + intros H. destruct (IH _ H); [left; by constructor | by right].
Qed.

Lemma elem_of_replace x old new s :
  x ∈ Py.replace old new s → x ∈ s ∨ x ∈ new.
Proof.
  destruct old as [|o old]; [|apply elem_of_replace_go].
  simpl. rewrite elem_of_app. intros [H|H]; [by right|].
  induction s as [|c s IH]; simpl in H; [by left|].
  rewrite elem_of_cons, elem_of_app in H.
  destruct H as [->|[H|H]]; [left; by constructor | by right |].
  destruct (IH H); [left; by constructor | by right].
Qed.

Lemma elem_of_lstrip x s : x ∈ Py.lstrip s → x ∈ s.
Proof.
  induction s as [|c s IH]; simpl; [done|].
  destruct (Py.isspace c); [|done]. intros H. constructor. by apply IH.
Qed.

Lemma elem_of_strip x s : x ∈ Py.strip s → x ∈ s.
Proof.
  unfold Py.strip, Py.rstrip. rewrite elem_of_reverse. intros H.
  apply elem_of_lstrip in H. rewrite elem_of_reverse in H. by apply elem_of_lstrip.
Qed.

Lemma elem_of_join x sep l :
  x ∈ Py.join sep l → x ∈ sep ∨ ∃ line, line ∈ l ∧ x ∈ line.
Proof.
  induction l as [|a l IH]; simpl; [by intros ?%elem_of_nil|].
  destruct l as [|b l].
  - intros H. right. exists a. split; [by constructor | done].
  - rewrite !elem_of_app. intros [H|[H|H]].
    + right. exists a. split; [by constructor | done].
    + by left.
    + destruct (IH H) as [?|(line & ? & ?)]; [by left|].
      right. exists line. split; [by constructor | done].
Qed.

Lemma elem_of_splitlines_go x line n : ∀ cur s,
  length s ≤ n → line ∈ Py.splitlines_go cur s → x ∈ line → x ∈ cur ∨ x ∈ s.
Proof.
  assert (Hend : ∀ cur, line ∈ match cur with [] => [] | _ => [reverse cur] end →
                        x ∈ line → x ∈ cur ∨ x ∈ []).
  { intros [|a cur]; [by intros ?%elem_of_nil|].
    intros ->%list_elem_of_singleton. rewrite elem_of_reverse. by left. }
  induction n as [|n IH]; intros cur s Hn.
  - destruct s; [apply Hend | simpl in Hn; lia].
  - destruct s as [|c s]; [apply Hend|]. simpl in Hn |- *.
    destruct (Py.is_linebreak c).
    + rewrite elem_of_cons. intros [->|H] Hx.
      { left. by apply elem_of_reverse. }
      right. destruct s as [|d s]; [by apply elem_of_nil in H|].
      destruct ((c =? CR)%N && (d =? LF)%N).
      * destruct (IH [] s ltac:(simpl in Hn; lia) H Hx) as [?%elem_of_nil|?]; [done|].
        by do 2 constructor.
      * destruct (IH [] (d :: s) ltac:(lia) H Hx) as [?%elem_of_nil|?]; [done|].
        by constructor.
    + intros H Hx. destruct (IH _ s ltac:(lia) H Hx) as [[->|?]%elem_of_cons|?].
      * right. by constructor.
      * by left.
      * right. by constructor.
Qed.

Lemma elem_of_splitlines x line s :
  line ∈ Py.splitlines s → x ∈ line → x ∈ s.
Proof.
  intros H Hx.
  destruct (elem_of_splitlines_go x line (length s) [] s (le_n _) H Hx) as [?%elem_of_nil|?]; done.
Qed.

(** ** A separator of one character *)

Section one_char.
Context (c : N).

Lemma startswith_one s :
  Py.startswith [c] s = match s with x :: _ => (c =? x)%N | [] => false end.
Proof. destruct s; simpl; [done | by rewrite andb_true_r]. Qed.

Lemma contains_one s : Py.contains [c] s = true ↔ c ∈ s.
Proof.
  induction s as [|x s IH].
  - simpl. split; [done | by intros ?%elem_of_nil].
  - cbn [Py.contains]. rewrite startswith_one, orb_true_iff, IH, elem_of_cons, N.eqb_eq.
    done.
Qed.

Lemma not_contains_one s : Py.contains [c] s = false ↔ c ∉ s.
Proof. rewrite <- contains_one. by destruct (Py.contains [c] s). Qed.

Lemma split_go_cons x s :
  Py.split_go [c] 0 (x :: s) =
  if (c =? x)%N then [] :: Py.split_go [c] 0 s
  else Py.cons_head x (Py.split_go [c] 0 s).
Proof. cbn [Py.split_go]. by rewrite startswith_one. Qed.

Lemma split_go_nonempty s : ∃ p ps, Py.split_go [c] 0 s = p :: ps.
Proof.
  destruct s as [|x s]; [by eexists _, _|]. rewrite split_go_cons.
  destruct (c =? x)%N; [by eexists _, _|].
  destruct (Py.split_go [c] 0 s); by eexists _, _.
Qed.

Lemma split_go_absent a : c ∉ a → Py.split_go [c] 0 a = [a].
Proof.
  induction a as [|x a IH]; [done|]. intros [Hx Ha]%not_elem_of_cons.
  rewrite split_go_cons, IH by done.
  by destruct (N.eqb_spec c x).
Qed.

Lemma split_go_first a b :
  c ∉ a → Py.split_go [c] 0 (a ++ c :: b) = a :: Py.split_go [c] 0 b.
Proof.
  induction a as [|x a IH]; simpl app.
  - intros _. by rewrite split_go_cons, N.eqb_refl.
  - intros [Hx Ha]%not_elem_of_cons. rewrite split_go_cons, IH by done.
    by destruct (N.eqb_spec c x).
Qed.

Lemma join_cons_head sep x l : Py.join sep (Py.cons_head x l) = x :: Py.join sep l.
Proof. destruct l as [|p [|q l]]; done. Qed.

Lemma join_split_go s : Py.join [c] (Py.split_go [c] 0 s) = s.
Proof.
  induction s as [|x s IH]; [done|]. rewrite split_go_cons.
  destruct (N.eqb_spec c x) as [<-|_].
  - destruct (split_go_nonempty s) as (p & ps & Hs). rewrite Hs in IH |- *.
    simpl in IH |- *. by rewrite IH.
  - by rewrite join_cons_head, IH.
Qed.

Lemma count_go_cons x s :
  Py.count_go [c] 0 (x :: s) =
  if (c =? x)%N then S (Py.count_go [c] 0 s) else Py.count_go [c] 0 s.
Proof. cbn [Py.count_go]. by rewrite startswith_one. Qed.

Lemma count_one_app a b :
  Py.count (a ++ b) [c] = Py.count a [c] + Py.count b [c].
Proof.
  unfold Py.count. induction a as [|x a IH]; [done|].
  simpl app. rewrite !count_go_cons, IH. by destruct (c =? x)%N.
Qed.

Lemma count_one_cons x s :
  Py.count (x :: s) [c] = (if (c =? x)%N then 1 else 0) + Py.count s [c].
Proof. unfold Py.count. rewrite count_go_cons. by destruct (c =? x)%N. Qed.

Lemma count_one_absent s : Py.count s [c] = 0 ↔ c ∉ s.
Proof.
  induction s as [|x s IH].
  - split; [by intros _ ?%elem_of_nil | done].
  - rewrite count_one_cons, not_elem_of_cons, <- IH.
    destruct (N.eqb_spec c x); simpl; split; try done; try lia; by intros [].
Qed.

Lemma count_one_contains s : Py.contains [c] s = true ↔ 0 < Py.count s [c].
Proof.
  rewrite contains_one. destruct (decide (c ∈ s)) as [H|H].
  - split; [|done]. intros _. destruct (Py.count s [c]) eqn:E; [|lia].
    by apply count_one_absent in E.
  - split; [done|]. apply count_one_absent in H. lia.
Qed.

End one_char.

(** ** Paragraph resolution *)

Section paragraphs.
Context (NEWLINE : str) (pd : N).

Local Abbreviation step := (paragraph_step NEWLINE [pd]).
Local Abbreviation resolve := (resolve_paragraphs NEWLINE [pd]).
Local Abbreviation folded b :=
  (Py.replace [LF] [SP] (Py.replace [CR; LF] [LF] (Py.strip b)) ++ NEWLINE ++ NEWLINE).

Lemma paragraph_step_pair a b c :
  pd ∉ a → pd ∉ b →
  step (a ++ pd :: b ++ pd :: c) = Ok (a ++ folded b ++ c).
Proof.
  intros Ha Hb. unfold paragraph_step, __text_between, __replace_between, Py.split.
  rewrite split_go_first, split_go_first by done. simpl.
  by rewrite drop_0, join_split_go.
Qed.

Lemma paragraph_step_last a b :
  pd ∉ a → pd ∉ b → step (a ++ pd :: b) = Ok (a ++ folded b ++ []).
Proof.
  intros Ha Hb. unfold paragraph_step, __text_between, __replace_between, Py.split.
  by rewrite split_go_first, split_go_absent by done.
Qed.

Lemma resolve_absent fuel text : pd ∉ text → resolve fuel text = Ok text.
Proof.
  intros H%not_contains_one. destruct fuel; simpl; by rewrite H.
Qed.

Lemma resolve_unfold fuel text :
  pd ∈ text → resolve (S fuel) text = step text ≫= resolve fuel.
Proof. intros H%contains_one. simpl. by rewrite H. Qed.

Section sentinel.
Hypothesis pd_newline : pd ∉ NEWLINE.
Hypothesis pd_LF : pd ≠ LF.
Hypothesis pd_SP : pd ≠ SP.

Lemma folded_absent b : pd ∉ b → pd ∉ folded b.
Proof using pd_newline pd_LF pd_SP.
  intros Hb. rewrite !not_elem_of_app. split_and!; [|done..].
  intros [[H|H]%elem_of_replace|H]%elem_of_replace.
  - by apply elem_of_strip in H.
  - by apply list_elem_of_singleton in H.
  - by apply list_elem_of_singleton in H.
Qed.

(** One iteration: it returns, and the markers left are those after the
    pair it took, or none if it took the last one alone. *)
Lemma paragraph_step_count text :
  pd ∈ text →
  ∃ text', step text = Ok text' ∧
    (2 ≤ Py.count text [pd] → Py.count text' [pd] + 2 = Py.count text [pd]) ∧
    (Py.count text [pd] = 1 → Py.count text' [pd] = 0).
Proof using pd_newline pd_LF pd_SP.
  intros (a & rest & -> & Ha)%list_elem_of_split_l.
  destruct (decide (pd ∈ rest)) as [(b & c & -> & Hb)%list_elem_of_split_l|Hrest].
  - eexists. split; [by apply paragraph_step_pair|].
    pose proof (folded_absent b Hb) as Hf.
    apply count_one_absent in Ha, Hb, Hf.
    rewrite !count_one_app, !count_one_cons, !count_one_app, !count_one_cons, !N.eqb_refl.
    rewrite Ha, Hb. rewrite !count_one_app in Hf. lia.
  - eexists. split; [by apply paragraph_step_last|].
    pose proof (folded_absent rest Hrest) as Hf.
    apply count_one_absent in Ha, Hf. pose proof Hrest as Hr%count_one_absent.
    rewrite !count_one_app, !count_one_cons, !N.eqb_refl.
    rewrite !count_one_app in Hf. rewrite Ha, Hr.
    change (Py.count [] [pd]) with 0. lia.
Qed.

Lemma resolve_terminates n : ∀ text,
  Py.count text [pd] ≤ n →
  ∃ out, (pd ∉ out) ∧ (∀ fuel, Py.count text [pd] ≤ fuel → resolve fuel text = Ok out).
Proof using pd_newline pd_LF pd_SP.
  induction n as [|n IH]; intros text Hn.
  - assert (pd ∉ text) by (apply count_one_absent; lia).
    exists text. split; [done|]. intros fuel _. by apply resolve_absent.
  - destruct (decide (pd ∈ text)) as [Hin|Hout].
    + destruct (paragraph_step_count text Hin) as (text' & Hstep & H2 & H1).
      pose proof (proj1 (count_one_contains pd text) (proj2 (contains_one pd text) Hin)).
      destruct (IH text' ltac:(lia)) as (out & Hout & Hres).
      exists out. split; [done|]. intros [|fuel] Hf; [lia|].
      rewrite resolve_unfold, Hstep by done. simpl. apply Hres. lia.
    + exists text. split; [done|]. intros fuel _. by apply resolve_absent.
Qed.

(** The loop works through a prefix with an even number of markers without
    looking at what comes after it. *)
Lemma resolve_prefix n : ∀ p,
  Py.count p [pd] = 2 * n →
  ∃ p', (pd ∉ p') ∧ ∀ rest fuel, resolve (n + fuel) (p ++ rest) = resolve fuel (p' ++ rest).
Proof using pd_newline pd_LF pd_SP.
  induction n as [|n IH]; intros p Hp.
  - exists p. split; [by apply count_one_absent | done].
  - assert (pd ∈ p) as (a & r & -> & Ha)%list_elem_of_split_l.
    { apply contains_one, count_one_contains. lia. }
    rewrite count_one_app, count_one_cons, N.eqb_refl in Hp.
    pose proof Ha as Ha'%count_one_absent.
    assert (pd ∈ r) as (b & c & -> & Hb)%list_elem_of_split_l.
    { apply contains_one, count_one_contains. lia. }
    rewrite count_one_app, count_one_cons, N.eqb_refl in Hp.
    pose proof Hb as Hb'%count_one_absent.
    pose proof (folded_absent b Hb) as Hf%count_one_absent.
    destruct (IH (a ++ folded b ++ c)) as (p' & Hp' & Hres).
    { rewrite !count_one_app in Hf. rewrite !count_one_app. lia. }
    exists p'. split; [done|]. intros rest fuel.
    replace ((a ++ pd :: b ++ pd :: c) ++ rest) with (a ++ pd :: b ++ pd :: (c ++ rest))
      by (by simplify_list_eq).
    cbn [Nat.add]. rewrite resolve_unfold by (apply elem_of_app; right; by left).
    rewrite paragraph_step_pair by done. cbn [mbind outcome_bind].
    rewrite <- Hres. f_equal. by simplify_list_eq.
Qed.

(** With an odd number of markers the last one has no partner; the loop
    resolves what is before it and takes the text after it as a paragraph. *)
Lemma resolve_unpaired p b :
  Nat.Even (Py.count p [pd]) → pd ∉ b →
  ∃ p', (∀ fuel, Py.count p [pd] ≤ fuel → resolve fuel p = Ok p') ∧
        (∀ fuel, Py.count (p ++ [pd] ++ b) [pd] ≤ fuel →
           resolve fuel (p ++ [pd] ++ b) = Ok (p' ++ folded b)).
Proof using pd_newline pd_LF pd_SP.
  intros [n Hn] Hb. destruct (resolve_prefix n p Hn) as (p' & Hp' & Hres).
  exists p'. split.
  - intros fuel Hfuel. replace fuel with (n + (fuel - n)) by lia.
    rewrite <- (app_nil_r p), Hres, app_nil_r. by apply resolve_absent.
  - rewrite count_one_app, count_one_app, count_one_cons, N.eqb_refl.
    pose proof Hb as Hb'%count_one_absent. rewrite Hb'.
    change (Py.count [] [pd]) with 0.
    intros fuel Hfuel. replace fuel with (n + S (fuel - n - 1)) by lia.
    rewrite Hres. cbn [app].
    rewrite resolve_unfold by (apply elem_of_app; right; by left).
    rewrite paragraph_step_last by done. cbn [mbind outcome_bind].
    rewrite app_nil_r. apply resolve_absent.
    apply not_elem_of_app. split; [done | by apply folded_absent].
Qed.

End sentinel.
End paragraphs.

(** ** Link markers *)

Lemma elem_of_sub_go x delim s : ∀ prev skip,
  x ∈ sub_go delim prev skip s → x ∈ s.
Proof.
  induction s as [|c s IH]; intros prev skip; simpl; [done|].
  destruct skip as [|k].
  - destruct (_ && _).
    + intros H. constructor. by eapply IH.
    + rewrite !elem_of_cons. intros [->|H]; [by left | right; by eapply IH].
  - intros H. constructor. by eapply IH.
Qed.

Lemma elem_of_re_sub x delim s : x ∈ re_sub_link_delims delim s → x ∈ s.
Proof. destruct delim; [done | apply elem_of_sub_go]. Qed.

Section links.
Context (NEWLINE : str) (ld : N).

Lemma replace_one_cons new x s :
  Py.replace [ld] new (x :: s) =
  if (ld =? x)%N then new ++ Py.replace [ld] new s else x :: Py.replace [ld] new s.
Proof. unfold Py.replace. cbn [Py.replace_go]. by rewrite startswith_one. Qed.

Lemma replace_one_absent new s : ld ∉ new → ld ∉ Py.replace [ld] new s.
Proof.
  intros Hnew. induction s as [|x s IH]; [by intros ?%elem_of_nil|].
  rewrite replace_one_cons. destruct (N.eqb_spec ld x).
  - by apply not_elem_of_app.
  - by apply not_elem_of_cons.
Qed.

Lemma replace_one_keeps new x s : x ≠ ld → x ∈ s → x ∈ Py.replace [ld] new s.
Proof.
  intros Hx. induction s as [|y s IH]; [done|].
  rewrite replace_one_cons, elem_of_cons. intros [<-|H].
  - destruct (N.eqb_spec ld x); [done | by constructor].
  - destruct (ld =? y)%N; [apply elem_of_app; right | constructor]; by apply IH.
Qed.

Lemma sub_go_cons prev x s :
  sub_go [ld] prev 0 (x :: s) =
  if (ld =? x)%N && (bool_decide (prev = Some LF) || at_newline s)
  then sub_go [ld] (Some x) 0 s
  else x :: sub_go [ld] (Some x) 0 s.
Proof. cbn [sub_go]. by rewrite startswith_one. Qed.

Lemma sub_go_keeps x s : ∀ prev, x ≠ ld → x ∈ s → x ∈ sub_go [ld] prev 0 s.
Proof.
  induction s as [|y s IH]; intros prev Hx; [done|].
  rewrite sub_go_cons, elem_of_cons. intros [<-|H].
  - destruct (N.eqb_spec ld x); [done | by constructor].
  - destruct (_ && _); [|constructor]; by apply IH.
Qed.

Lemma collapse_cons x s :
  Py.replace [ld; ld] [ld] (x :: s) =
  match s with
  | y :: s' =>
      if (ld =? x)%N && (ld =? y)%N
      then ld :: Py.replace [ld; ld] [ld] s'
      else x :: Py.replace [ld; ld] [ld] s
  | [] => [x]
  end.
Proof.
  unfold Py.replace. cbn [Py.replace_go Py.startswith length Nat.sub].
  destruct s as [|y s]; [by rewrite andb_false_r|].
  rewrite andb_true_r. by destruct (_ && _).
Qed.

Lemma collapse_keeps x s : x ≠ ld → x ∈ s → x ∈ Py.replace [ld; ld] [ld] s.
Proof.
  intros Hx. remember (length s) as n eqn:Hn.
  revert s Hn. induction (lt_wf n) as [n _ IH]. intros s -> Hs.
  destruct s as [|y s]; [done|]. rewrite collapse_cons.
  destruct s as [|z s].
  - done.
  - destruct (N.eqb_spec ld y) as [<-|]; cbn [andb].
    + destruct (N.eqb_spec ld z) as [<-|].
      * apply elem_of_cons in Hs as [?|[?|Hs]%elem_of_cons]; [done..|].
        constructor. eapply IH; [|done..]. simpl; lia.
      * apply elem_of_cons in Hs as [?|Hs]; [done|].
        constructor. eapply IH; [|done..]. simpl; lia.
    + apply elem_of_cons in Hs as [->|Hs]; [by constructor|].
      constructor. eapply IH; [|done..]. simpl; lia.
Qed.

Lemma collapse_absent a b :
  ld ∉ a →
  Py.replace [ld; ld] [ld] (a ++ b) = a ++ Py.replace [ld; ld] [ld] b.
Proof.
  induction a as [|x a IH]; [done|]. intros [Hx Ha]%not_elem_of_cons.
  simpl app at 1. rewrite collapse_cons.
  assert ((ld =? x)%N = false) as -> by by apply N.eqb_neq.
  cbn [app]. rewrite <- (IH Ha).
  destruct (a ++ b) eqn:E; [|done].
  by apply app_eq_nil in E as [-> ->].
Qed.


Lemma collapse_run n : ∀ b,
  head b ≠ Some ld →
  Py.replace [ld; ld] [ld] (replicate n ld ++ b) =
  replicate (Nat.div2 (S n)) ld ++ Py.replace [ld; ld] [ld] b.
Proof.
  induction (lt_wf n) as [n _ IH]. intros b Hb.
  destruct n as [|[|m]].
  - done.
  - cbn [replicate app Nat.div2]. rewrite collapse_cons.
    destruct b as [|y b]; [done|].
    assert ((ld =? y)%N = false) as ->; [|by rewrite andb_false_r].
    apply N.eqb_neq. intros <-. by apply Hb.
  - cbn [replicate app Nat.div2]. rewrite collapse_cons, N.eqb_refl. cbn [andb].
    rewrite IH by (done || lia). done.
Qed.

(** After the pairs are collapsed, every character leaves in the result what
    [Spec.link_output] says, whatever stands before it. *)
Lemma prune_materialize s : ∀ pre,
  Py.replace [ld] NEWLINE (sub_go [ld] (last pre) 0 s) =
  flat_map (Spec.link_output NEWLINE ld (pre ++ s)) (seq (length pre) (length s)).
Proof.
  induction s as [|x s IH]; intros pre; [done|].
  cbn [length seq flat_map]. rewrite sub_go_cons.
  specialize (IH (pre ++ [x])).
  rewrite last_snoc, <- app_assoc, length_app, Nat.add_1_r in IH. cbn [app] in IH.
  rewrite <- IH. unfold Spec.link_output at 1, Spec.at_line_break.
  rewrite list_lookup_middle by done.
  rewrite take_app_length.
  replace (drop (S (length pre)) (pre ++ x :: s)) with s; last first.
  { rewrite (cons_middle x pre s), app_assoc.
    replace (S (length pre)) with (length (pre ++ [x])) by (rewrite length_app; simpl; lia).
    by rewrite drop_app_length. }
  rewrite (N.eqb_sym x ld).
  destruct (N.eqb_spec ld x) as [<-|Hne]; cbn [andb].
  - destruct (_ || _); [done|]. by rewrite replace_one_cons, N.eqb_refl.
  - rewrite replace_one_cons. by assert ((ld =? x)%N = false) as -> by by apply N.eqb_neq.
Qed.

Lemma resolve_links_spec text :
  resolve_links NEWLINE [ld] text =
  Spec.links_resolved NEWLINE ld (Py.replace [ld; ld] [ld] text).
Proof.
  unfold resolve_links, Spec.links_resolved, re_sub_link_delims.
  apply (prune_materialize _ []).
Qed.

Lemma resolve_links_absent text : ld ∉ NEWLINE → ld ∉ resolve_links NEWLINE [ld] text.
Proof. apply replace_one_absent. Qed.

Lemma elem_of_resolve_links x text :
  x ∈ resolve_links NEWLINE [ld] text → x ∈ text ∨ x ∈ NEWLINE ∨ x = ld.
Proof.
  unfold resolve_links. intros [H|H]%elem_of_replace; [|by right; left].
  apply elem_of_re_sub in H. apply elem_of_replace in H as [H|H]; [by left|].
  apply list_elem_of_singleton in H. by right; right.
Qed.

Lemma resolve_links_keeps x text :
  x ≠ ld → x ∈ text → x ∈ resolve_links NEWLINE [ld] text.
Proof.
  intros Hx H. unfold resolve_links, re_sub_link_delims.
  by apply replace_one_keeps, sub_go_keeps, collapse_keeps.
Qed.

End links.

(** ** The loop's exit, whatever the marker *)

Lemma resolve_exit NEWLINE PD fuel : ∀ text out,
  resolve_paragraphs NEWLINE PD fuel text = Ok out → Py.contains PD out = false.
Proof.
  induction fuel as [|fuel IH]; intros text out; simpl;
    destruct (Py.contains PD text) eqn:E; try done; try congruence.
  destruct (paragraph_step NEWLINE PD text) as [text'| |]; simpl; try done.
  apply IH.
Qed.

Lemma resolve_fixed NEWLINE PD fuel text :
  Py.contains PD text = false → resolve_paragraphs NEWLINE PD fuel text = Ok text.
Proof. intros H. destruct fuel; simpl; by rewrite H. Qed.

(** ** The pass over the lines *)

Lemma splitlines_go_nil s : ∀ cur, Py.splitlines_go cur s = [] → cur = [] ∧ s = [].
Proof.
  induction s as [|c s IH]; intros cur; simpl.
  - by destruct cur.
  - destruct (Py.is_linebreak c); [done|]. by intros [? ?]%IH.
Qed.

Lemma splitlines_nonempty s : s ≠ [] → Py.splitlines s ≠ [].
Proof. intros Hs H. by apply splitlines_go_nil in H as [_ ?]. Qed.

Lemma index_lt {A} (l : list A) i : i < length l → ∃ x, index l i = Ok x ∧ l !! i = Some x.
Proof.
  intros [x Hx]%lookup_lt_is_Some. exists x. unfold index. by rewrite Hx.
Qed.

(** The pass never raises, keeps the number of lines, and keeps every
    property of the lines that [lstrip] keeps. *)
Lemma strip_after_links_ok (P : str → Prop) n :
  (∀ s, P s → P (Py.lstrip s)) →
  ∀ i pre gemlines,
  Forall P gemlines →
  ∃ out, strip_after_links n i (length gemlines) pre gemlines = Ok out ∧
         Forall P out ∧ length out = length gemlines.
Proof.
  intros HP. induction n as [|n IH]; intros i pre gemlines Hall;
    cbn [strip_after_links].
  { by exists gemlines. }
  destruct (gemlines !! i) as [line|] eqn:Hline; [|by exists gemlines].
  destruct (Py.startswith (lit "```") line); [by apply IH|].
  destruct (_ && _) eqn:Hguard; [|by apply IH].
  apply andb_true_iff in Hguard as [[Hi%Z.ltb_lt _]%andb_true_iff _].
  destruct (index_lt gemlines (i + 1) ltac:(lia)) as (next & -> & Hnext).
  cbn [mbind outcome_bind].
  destruct (IH (S i) pre (<[i + 1 := Py.lstrip next]> gemlines)) as (out & Hout & ? & Hlen).
  { apply Forall_insert; [done|]. apply HP. by eapply Forall_lookup_1. }
  rewrite length_insert in Hout, Hlen. by exists out.
Qed.

Lemma lstrip_spaces n : Py.lstrip (replicate n SP) = [].
Proof. induction n; [done|]. simpl. by rewrite IHn. Qed.

Lemma strip_spaces n : Py.strip (replicate n SP) = [].
Proof. unfold Py.strip. by rewrite lstrip_spaces. Qed.

(** ** Front matter *)

Lemma front_matter_end_none frontmatter jekyll lines rest : ∀ i,
  Forall (λ line, line ≠ lit "---" ∧ line ≠ lit "+++") rest →
  front_matter_end frontmatter jekyll lines i rest = [].
Proof.
  induction rest as [|line rest IH]; intros i; [done|].
  intros [[H1 H2] Hrest]%Forall_cons. simpl.
  rewrite !bool_decide_eq_false_2, !andb_false_r by done. by apply IH.
Qed.

Lemma front_matter_end_jekyll lines rest : ∀ i,
  lit "---" ∉ rest → front_matter_end false true lines i rest = [].
Proof.
  induction rest as [|line rest IH]; intros i; [done|].
  intros [H1 Hrest]%not_elem_of_cons. simpl.
  rewrite bool_decide_eq_false_2 by done. by apply IH.
Qed.

Lemma front_matter_end_found jekyll lines before closing after : ∀ i,
  Forall (λ line, line ≠ lit "---" ∧ line ≠ lit "+++") before →
  closing = lit "---" ∨ closing = lit "+++" →
  front_matter_end true jekyll lines i (before ++ closing :: after) =
  drop (i + length before + 2) lines.
Proof.
  induction before as [|line before IH]; intros i Hbefore Hclosing.
  - cbn [app front_matter_end orb andb length]. rewrite Nat.add_0_r.
    destruct Hclosing as [-> | ->]; by rewrite ?bool_decide_eq_true_2 by done.
  - apply Forall_cons in Hbefore as [[H1 H2] Hbefore].
    cbn [app front_matter_end orb andb length].
    rewrite !bool_decide_eq_false_2 by done. cbn [orb].
    rewrite IH by done. f_equal. lia.
Qed.

(** * The claims *)

(** C9. Paragraph resolution leaves a text without paragraph markers as it
    is, for any bound on the iterations; so running it again on a result of
    its own changes nothing. *)
Theorem C9_resolution_idempotent NEWLINE PARAGRAPH_DELIM fuel text :
  Py.contains PARAGRAPH_DELIM text = false →
  resolve_paragraphs NEWLINE PARAGRAPH_DELIM fuel text = Ok text ∧
  (∀ fuel' text' out,
     resolve_paragraphs NEWLINE PARAGRAPH_DELIM fuel' text' = Ok out →
     resolve_paragraphs NEWLINE PARAGRAPH_DELIM fuel out = Ok out).
Proof.
  intros H. split; [by apply resolve_fixed|].
  intros fuel' text' out Hout. apply resolve_exit in Hout. by apply resolve_fixed.
Qed.

Lemma C9_resolution_idempotent_witness :
  Py.contains Sample.PARAGRAPH_DELIM (lit "Hello world.") = false ∧
  resolve_paragraphs Sample.NEWLINE Sample.PARAGRAPH_DELIM 0 (lit "Hello world.")
    = Ok (lit "Hello world.").
Proof.
  split; [reflexivity|].
  apply (C9_resolution_idempotent Sample.NEWLINE Sample.PARAGRAPH_DELIM 0 (lit "Hello world.")).
  reflexivity.
Defined.

(** C1 as the specification words it, without the strip, fails on a
    paragraph that starts with a space. *)
Lemma C1_counterexample :
  ¬ (∀ a b c : str,
       2%N ∉ a → 2%N ∉ b →
       paragraph_step Sample.NEWLINE Sample.PARAGRAPH_DELIM
         (a ++ Sample.PARAGRAPH_DELIM ++ b ++ Sample.PARAGRAPH_DELIM ++ c)
       = Ok (a ++ Spec.paragraph Sample.NEWLINE b ++ c)).
Proof.
  intros H.
  specialize (H [] (lit " a") [] ltac:(compute_done) ltac:(compute_done)).
  vm_compute in H. discriminate H.
Qed.

(** C1, amended.  The loop body takes the leftmost pair of markers: the text
    [b] between them is stripped of leading and trailing white space, then
    its [\r\n] become [\n] and its [\n] a space, two line breaks are put
    after it, and the result stands where the markers and [b] stood; the
    loop goes on from there.  The paragraph "Hello\nworld." becomes
    "Hello world." and two line breaks. *)
Theorem C1_paragraph_resolution NEWLINE pd (a b c : str) :
  pd ∉ a → pd ∉ b →
  paragraph_step NEWLINE [pd] (a ++ [pd] ++ b ++ [pd] ++ c)
    = Ok (a ++ Spec.paragraph NEWLINE (Py.strip b) ++ c) ∧
  (∀ fuel,
     resolve_paragraphs NEWLINE [pd] (S fuel) (a ++ [pd] ++ b ++ [pd] ++ c)
     = resolve_paragraphs NEWLINE [pd] fuel (a ++ Spec.paragraph NEWLINE (Py.strip b) ++ c)) ∧
  (b = lit "Hello" ++ [LF] ++ lit "world." →
   paragraph_step NEWLINE [pd] ([pd] ++ b ++ [pd])
     = Ok (lit "Hello world." ++ NEWLINE ++ NEWLINE)).
Proof.
  intros Ha Hb.
  assert (∀ a c, pd ∉ a → paragraph_step NEWLINE [pd] (a ++ [pd] ++ b ++ [pd] ++ c)
    = Ok (a ++ Spec.paragraph NEWLINE (Py.strip b) ++ c)) as Hstep.
  { intros a' c' Ha'. by apply paragraph_step_pair. }
  split_and!.
  - by apply Hstep.
  - intros fuel. rewrite resolve_unfold, Hstep; [done..|].
    apply elem_of_app. right. by left.
  - intros ->. pose proof (Hstep [] [] (not_elem_of_nil _)) as Hhello.
    rewrite !app_nil_r in Hhello. cbn [app] in Hhello |- *. by rewrite Hhello.
Qed.

Lemma C1_paragraph_resolution_witness :
  (2%N ∉ lit "# T") ∧ (2%N ∉ lit " one" ++ [CR; LF] ++ lit "two ") ∧
  paragraph_step Sample.NEWLINE [2%N]
    (lit "# T" ++ [2%N] ++ lit " one" ++ [CR; LF] ++ lit "two " ++ [2%N] ++ lit "rest")
  = Ok (lit "# Tone two" ++ [CR; LF; CR; LF] ++ lit "rest").
Proof.
  split_and!; [compute_done..|].
  refine (proj1 (C1_paragraph_resolution Sample.NEWLINE 2%N (lit "# T")
            (lit " one" ++ [CR; LF] ++ lit "two ") (lit "rest") _ _));
    compute_done.
Defined.

(** C4 as the specification words it fails where one marker is left: the
    iteration takes that marker alone, not a pair. *)
Lemma C4_counterexample :
  ¬ (∀ text text' : str,
       Py.contains Sample.PARAGRAPH_DELIM text = true →
       paragraph_step Sample.NEWLINE Sample.PARAGRAPH_DELIM text = Ok text' →
       Py.count text' Sample.PARAGRAPH_DELIM + 2 = Py.count text Sample.PARAGRAPH_DELIM).
Proof.
  intros H.
  specialize (H (Sample.PARAGRAPH_DELIM ++ lit "a") (lit "a" ++ [CR; LF; CR; LF])
                eq_refl eq_refl).
  vm_compute in H. discriminate H.
Qed.

(** C4, amended.  For a marker of one character that is neither [\n] nor a
    space and does not occur in [NEWLINE]: an iteration of the loop on a
    text with a marker returns a text with fewer markers, two fewer when at
    least two were there and none when one was; and the loop ends, with a
    bound on the iterations that is at least the number of markers, on a
    text without markers. *)
Theorem C4_paragraph_loop_terminates NEWLINE pd text :
  pd ∉ NEWLINE → pd ≠ LF → pd ≠ SP →
  (Py.contains [pd] text = true →
   ∃ text', paragraph_step NEWLINE [pd] text = Ok text' ∧
     Py.count text' [pd] < Py.count text [pd] ∧
     (2 ≤ Py.count text [pd] → Py.count text' [pd] + 2 = Py.count text [pd]) ∧
     (Py.count text [pd] = 1 → Py.count text' [pd] = 0)) ∧
  (∃ out, Py.count out [pd] = 0 ∧
     (∀ fuel, Py.count text [pd] ≤ fuel →
        resolve_paragraphs NEWLINE [pd] fuel text = Ok out)).
Proof.
  intros Hnl Hlf Hsp. split.
  - intros Hin. pose proof (proj1 (count_one_contains pd text) Hin) as Hpos.
    apply contains_one in Hin.
    destruct (paragraph_step_count NEWLINE pd Hnl Hlf Hsp text Hin) as (text' & Hstep & H2 & H1).
    exists text'. split_and!; [done| |done..]. lia.
  - destruct (resolve_terminates NEWLINE pd Hnl Hlf Hsp _ text (le_n _)) as (out & Hout & Hres).
    exists out. split; [by apply count_one_absent | done].
Qed.

Lemma C4_paragraph_loop_terminates_witness :
  ((2%N ∉ Sample.NEWLINE) ∧ 2%N ≠ LF ∧ 2%N ≠ SP) ∧
  ∃ out, Py.count out [2%N] = 0 ∧
    (∀ fuel, Py.count ([2%N] ++ lit "a" ++ [2%N] ++ lit "b" ++ [2%N] ++ lit "c") [2%N] ≤ fuel →
       resolve_paragraphs Sample.NEWLINE [2%N] fuel
         ([2%N] ++ lit "a" ++ [2%N] ++ lit "b" ++ [2%N] ++ lit "c") = Ok out).
Proof.
  split; [split_and!; compute_done|].
  refine (proj2 (C4_paragraph_loop_terminates Sample.NEWLINE 2%N _ _ _ _)); compute_done.
Defined.

(** ** From the resolved paragraphs to the result *)

Section finish.
Context (NEWLINE : str).

Lemma clean_lines_ok gemtext :
  gemtext ≠ [] → ∃ out, clean_lines NEWLINE gemtext = Ok out.
Proof.
  intros Hne%splitlines_nonempty. unfold clean_lines.
  destruct (index_lt (Py.splitlines gemtext) (length (Py.splitlines gemtext) - 1))
    as (final & -> & _).
  { destruct (Py.splitlines gemtext); [done | simpl; lia]. }
  cbn [mbind outcome_bind].
  set (gemlines := if bool_decide (final = []) then _ else _).
  destruct (strip_after_links_ok (λ _, True) (length gemlines) (λ _ _, I) 0 false gemlines)
    as (out & -> & _); [by apply Forall_true|].
  by eexists.
Qed.

Lemma clean_lines_elem x gemtext out :
  clean_lines NEWLINE gemtext = Ok out → x ∈ out → x ∈ gemtext ∨ x ∈ NEWLINE.
Proof.
  unfold clean_lines.
  destruct (index _ _) as [final| |]; cbn [mbind outcome_bind]; [|done..].
  set (gemlines := if bool_decide (final = []) then _ else _).
  assert (Forall (λ line, ∀ y, y ∈ line → y ∈ gemtext) gemlines) as Hall.
  { assert (Forall (λ line, ∀ y, y ∈ line → y ∈ gemtext) (Py.splitlines gemtext)) as Hall.
    { apply Forall_forall. intros line Hline y Hy. by eapply elem_of_splitlines. }
    subst gemlines. destruct (bool_decide _); [by apply Forall_take | done]. }
  destruct (strip_after_links_ok _ (length gemlines)
              (λ s Hs y Hy, Hs y (elem_of_lstrip y s Hy)) 0 false gemlines Hall)
    as (out' & -> & Hout' & _).
  cbn [mbind outcome_bind]. intros [= <-] [H|(line & Hline & Hx)]%elem_of_join.
  - by right.
  - left. by eapply (proj1 (Forall_forall _ _) Hout').
Qed.

End finish.

Section conversion.
Context (NEWLINE : str) (pd ld : N).

Lemma paragraph_step_newline text :
  pd ∈ text →
  ∃ text', paragraph_step NEWLINE [pd] text = Ok text' ∧ ∀ x, x ∈ NEWLINE → x ∈ text'.
Proof.
  intros (a & rest & -> & Ha)%list_elem_of_split_l.
  destruct (decide (pd ∈ rest)) as [(b & c & -> & Hb)%list_elem_of_split_l|Hrest];
    (eexists; split; [by (apply paragraph_step_pair || apply paragraph_step_last)|]);
    intros x Hx; rewrite !elem_of_app; auto.
Qed.

Lemma resolve_newline fuel : ∀ text out,
  pd ∈ text → resolve_paragraphs NEWLINE [pd] fuel text = Ok out →
  ∀ x, x ∈ NEWLINE → x ∈ out.
Proof.
  induction fuel as [|fuel IH]; intros text out Hin.
  - apply contains_one in Hin. simpl. by rewrite Hin.
  - rewrite resolve_unfold by done.
    destruct (paragraph_step_newline text Hin) as (text' & -> & Hnl).
    cbn [mbind outcome_bind]. destruct (decide (pd ∈ text')) as [Hin'|Hout'].
    + by apply IH.
    + rewrite resolve_absent by done. by intros [= <-].
Qed.

End conversion.

(** C7 as the specification words it fails: with one marker, unpaired, the
    conversion returns a text. *)
Lemma C7_counterexample :
  ¬ (∀ (text : str) (fuel : nat) (out : str),
       Nat.Odd (Py.count text Sample.PARAGRAPH_DELIM) →
       postprocess Sample.NEWLINE Sample.PARAGRAPH_DELIM Sample.LINK_DELIM
         fuel (lit "newline") [] text ≠ Ok out).
Proof.
  intros H. apply (H (Sample.PARAGRAPH_DELIM ++ lit "a") 1 (lit "a")); [|reflexivity].
  by exists 0.
Qed.

(** C7, amended.  For markers of one character outside a non-empty
    [NEWLINE], the paragraph marker neither [\n] nor a space: on a text with
    an odd number of paragraph markers the post-processing does not abort,
    it returns a text.  The last marker, which has no partner, is taken
    alone: what stands before it is resolved as it would be without it, and
    the text after it, to the end, is resolved as a paragraph. *)
Theorem C7_unpaired_marker_consumed NEWLINE pd ld links footnotes (text : str) :
  pd ∉ NEWLINE → pd ≠ LF → pd ≠ SP → ld ∉ NEWLINE → NEWLINE ≠ [] →
  Nat.Odd (Py.count text [pd]) →
  (∃ out, ∀ fuel, Py.count text [pd] ≤ fuel →
     postprocess NEWLINE [pd] [ld] fuel links footnotes text = Ok out) ∧
  (∀ p b : str, text = p ++ [pd] ++ b → pd ∉ b →
     ∃ p', (∀ fuel, Py.count p [pd] ≤ fuel →
              resolve_paragraphs NEWLINE [pd] fuel p = Ok p') ∧
           (∀ fuel, Py.count text [pd] ≤ fuel →
              resolve_paragraphs NEWLINE [pd] fuel text
              = Ok (p' ++ Spec.paragraph NEWLINE (Py.strip b)))).
Proof.
  intros Hpd Hlf Hsp Hld Hne [k Hodd]. split.
  - destruct (resolve_terminates NEWLINE pd Hpd Hlf Hsp _ text (le_n _)) as (g1 & Hg1 & Hres).
    assert (∃ x, x ∈ NEWLINE) as [x Hx].
    { destruct NEWLINE as [|x ?]; [done|]. exists x. by left. }
    assert (x ∈ g1) as Hxg.
    { eapply (resolve_newline NEWLINE pd); [|by apply Hres|done].
      apply contains_one, count_one_contains. lia. }
    assert (x ∈ resolve_links NEWLINE [ld] (add_footnotes NEWLINE links footnotes g1)) as Hx3.
    { apply resolve_links_keeps; [by intros ->|].
      unfold add_footnotes. destruct (bool_decide _); [|done]. apply elem_of_app; by left. }
    destruct (clean_lines_ok NEWLINE
                (resolve_links NEWLINE [ld] (add_footnotes NEWLINE links footnotes g1)))
      as (out & Hout).
    { intros E. rewrite E in Hx3. by apply elem_of_nil in Hx3. }
    exists out. intros fuel Hfuel. unfold postprocess. by rewrite Hres.
  - intros p b -> Hb. apply (resolve_unpaired NEWLINE pd Hpd Hlf Hsp p b); [|done].
    exists k. rewrite count_one_app, count_one_app, count_one_cons, N.eqb_refl in Hodd.
    apply count_one_absent in Hb. rewrite Hb in Hodd.
    change (Py.count [] [pd]) with 0 in Hodd. lia.
Qed.

Lemma C7_unpaired_marker_consumed_witness :
  ((2%N ∉ Sample.NEWLINE) ∧ 2%N ≠ LF ∧ 2%N ≠ SP ∧ (3%N ∉ Sample.NEWLINE) ∧
   Sample.NEWLINE ≠ [] ∧ Nat.Odd (Py.count ([2%N] ++ lit "a") [2%N])) ∧
  ∃ out, ∀ fuel, Py.count ([2%N] ++ lit "a") [2%N] ≤ fuel →
    postprocess Sample.NEWLINE [2%N] [3%N] fuel (lit "newline") [] ([2%N] ++ lit "a") = Ok out.
Proof.
  assert (Nat.Odd (Py.count ([2%N] ++ lit "a") [2%N])) as Hodd by (by exists 0).
  split; [split_and!; (done || compute_done)|].
  refine (proj1 (C7_unpaired_marker_consumed Sample.NEWLINE 2%N 3%N (lit "newline") []
                   ([2%N] ++ lit "a") _ _ _ _ _ Hodd)); compute_done.
Defined.

(** C3.  The code does not return on the empty document.  With [frontmatter]
    or [jekyll] set, the empty document and a document of spaces have no
    line, and [lines[0]] raises [IndexError]; with neither set and a
    renderer that makes the empty text of the empty document, [gemlines] is
    empty and [gemlines[-1]] raises [IndexError]. *)
Theorem C3_empty_document_raises NEWLINE pd ld gem footnotes fuel opts jekyll n :
  md2gemini NEWLINE [pd] [ld] gem footnotes fuel [] opts true jekyll = Raise IndexError ∧
  md2gemini NEWLINE [pd] [ld] gem footnotes fuel [] opts false true = Raise IndexError ∧
  md2gemini NEWLINE [pd] [ld] gem footnotes fuel (replicate n SP) opts true jekyll
    = Raise IndexError ∧
  md2gemini NEWLINE [pd] [ld] (Sample.renders []) footnotes fuel []
    (Sample.opts (lit "newline")) false false = Raise IndexError.
Proof.
  split_and!.
  - done.
  - done.
  - unfold md2gemini, preprocess. by rewrite strip_spaces.
  - unfold md2gemini, preprocess, postprocess. cbn [mbind outcome_bind].
    by rewrite resolve_fixed.
Qed.

(** C5 as the specification words it fails on a run of three link markers:
    two are left, not one. *)
Lemma C5_counterexample :
  ¬ (∀ (a b : str) (n : nat),
       2 ≤ n → 3%N ∉ a → head b ≠ Some 3%N →
       Py.replace (Sample.LINK_DELIM ++ Sample.LINK_DELIM) Sample.LINK_DELIM
         (a ++ replicate n 3%N ++ b)
       = a ++ Sample.LINK_DELIM ++
         Py.replace (Sample.LINK_DELIM ++ Sample.LINK_DELIM) Sample.LINK_DELIM b).
Proof.
  intros H.
  specialize (H (lit "a") (lit "b") 3 ltac:(lia) ltac:(compute_done) ltac:(done)).
  vm_compute in H. discriminate H.
Qed.

(** C5, amended.  For a link marker of one character.  The first statement
    replaces, in one pass from the left, each pair of markers by one marker:
    a run of [n] markers comes out as a run of [n/2] rounded up, a run of
    two as one marker.  After it, a marker with [\n] right before it, or
    with [\n] or [\r\n] right after it, leaves nothing in the result, every
    other marker leaves [NEWLINE], and every other character itself. *)
Theorem C5_link_resolution NEWLINE ld :
  (∀ (a b : str) (n : nat),
     ld ∉ a → head b ≠ Some ld →
     Py.replace ([ld] ++ [ld]) [ld] (a ++ replicate n ld ++ b)
     = a ++ replicate (Nat.div2 (S n)) ld ++ Py.replace ([ld] ++ [ld]) [ld] b) ∧
  (∀ text : str,
     resolve_links NEWLINE [ld] text
     = Spec.links_resolved NEWLINE ld (Py.replace ([ld] ++ [ld]) [ld] text)).
Proof.
  split.
  - intros a b n Ha Hb. cbn [app]. by rewrite collapse_absent, collapse_run.
  - apply resolve_links_spec.
Qed.

Lemma C5_link_resolution_witness :
  ((3%N ∉ lit "a") ∧ head (lit "b") ≠ Some 3%N) ∧
  Py.replace ([3%N] ++ [3%N]) [3%N] (lit "a" ++ replicate 2 3%N ++ lit "b")
  = lit "a" ++ [3%N] ++ lit "b".
Proof.
  split; [split; [compute_done | done]|].
  refine (proj1 (C5_link_resolution Sample.NEWLINE 3%N) (lit "a") (lit "b") 2 _ _);
    [compute_done | done].
Defined.

Lemma strip_after_links_last n : ∀ i pre (gemlines out : list str),
  strip_after_links n i (length gemlines) pre gemlines = Ok out →
  last out = last gemlines.
Proof.
  induction n as [|n IH]; intros i pre gemlines out; cbn [strip_after_links].
  { by intros [= <-]. }
  destruct (gemlines !! i) as [line|] eqn:Hline; [|by intros [= <-]].
  destruct (Py.startswith (lit "```") line); [by apply IH|].
  destruct (_ && _) eqn:Hguard; [|by apply IH].
  apply andb_true_iff in Hguard as [[Hi%Z.ltb_lt _]%andb_true_iff _].
  destruct (index_lt gemlines (i + 1) ltac:(lia)) as (next & -> & Hnext).
  cbn [mbind outcome_bind]. intros Hout.
  rewrite <- (length_insert gemlines (i + 1) (Py.lstrip next)) in Hout.
  apply IH in Hout. rewrite Hout, !last_lookup, length_insert.
  apply list_lookup_insert_ne. lia.
Qed.

(** C6.  The pass over the lines never strips the last line, also when the
    line before it begins with "=>" outside a preformatted region: the test
    [i+1 < length-1] leaves it out.  On "=> a" followed by "  b" the result
    keeps the two spaces, and with one more line after them it does not. *)
Theorem C6_last_line_not_stripped :
  (∀ gemlines : list str,
     ∃ out, strip_after_links (length gemlines) 0 (length gemlines) false gemlines = Ok out ∧
            last out = last gemlines) ∧
  (∀ fuel markdown,
     md2gemini Sample.NEWLINE Sample.PARAGRAPH_DELIM Sample.LINK_DELIM
       (Sample.renders (lit "=> a" ++ Sample.NEWLINE ++ lit "  b"))
       Sample.no_footnotes fuel markdown (Sample.opts (lit "newline")) false false
     = Ok (lit "=> a" ++ Sample.NEWLINE ++ lit "  b")) ∧
  (∀ fuel markdown,
     md2gemini Sample.NEWLINE Sample.PARAGRAPH_DELIM Sample.LINK_DELIM
       (Sample.renders (lit "=> a" ++ Sample.NEWLINE ++ lit "  b" ++ Sample.NEWLINE ++ lit "c"))
       Sample.no_footnotes fuel markdown (Sample.opts (lit "newline")) false false
     = Ok (lit "=> a" ++ Sample.NEWLINE ++ lit "b" ++ Sample.NEWLINE ++ lit "c")).
Proof.
  split_and!.
  - intros gemlines.
    destruct (strip_after_links_ok (λ _, True) (length gemlines) (λ _ _, I) 0 false gemlines)
      as (out & Hout & _); [by apply Forall_true|].
    exists out. split; [done|]. by eapply strip_after_links_last.
  - intros fuel markdown. unfold md2gemini, preprocess, postprocess.
    cbn [mbind outcome_bind]. by rewrite resolve_fixed.
  - intros fuel markdown. unfold md2gemini, preprocess, postprocess.
    cbn [mbind outcome_bind]. by rewrite resolve_fixed.
Qed.

Lemma drop_past_closing (first closing : str) (before after : list str) :
  drop (0 + length before + 2) (first :: before ++ closing :: after) = after.
Proof.
  replace (0 + length before + 2) with (S (length (before ++ [closing])))
    by (rewrite length_app; simpl; lia).
  cbn [drop]. by rewrite (cons_middle closing before after), app_assoc, drop_app_length.
Qed.

(** C8 as the specification words it fails: a later "+++" line closes the
    block that "---" opened. *)
Lemma C8_counterexample :
  ¬ (∀ (markdown : str) (rest : list str),
       Py.splitlines (Py.strip markdown) = lit "---" :: rest →
       lit "---" ∉ rest →
       preprocess true false markdown = Ok markdown).
Proof.
  intros H.
  specialize (H (lit "---" ++ [LF] ++ lit "title: x" ++ [LF] ++ lit "+++" ++ [LF] ++ lit "body")
                [lit "title: x"; lit "+++"; lit "body"] eq_refl ltac:(compute_done)).
  vm_compute in H. discriminate H.
Qed.

(** C8, amended.  With [frontmatter] set, a document whose first line is
    "---" and that has no later line equal to "---" or to "+++" goes to the
    renderer as it is, and the pre-processing raises nothing; with [jekyll]
    alone, the same for a document with no later line equal to "---". *)
Theorem C8_unterminated_front_matter (markdown : str) (rest : list str) :
  Py.splitlines (Py.strip markdown) = lit "---" :: rest →
  (Forall (λ line, line ≠ lit "---" ∧ line ≠ lit "+++") rest →
   ∀ jekyll,
     preprocess true jekyll markdown = Ok markdown ∧
     ∀ NEWLINE PD LD gem footnotes fuel opts,
       md2gemini NEWLINE PD LD gem footnotes fuel markdown opts true jekyll
       = postprocess NEWLINE PD LD fuel (links opts) (footnotes opts markdown)
           (gem opts markdown)) ∧
  (lit "---" ∉ rest → preprocess false true markdown = Ok markdown).
Proof.
  intros Hlines.
  assert (∀ jekyll, Forall (λ line, line ≠ lit "---" ∧ line ≠ lit "+++") rest →
                    preprocess true jekyll markdown = Ok markdown) as Hpre.
  { intros jekyll Hrest. unfold preprocess. rewrite Hlines.
    cbn [index lookup list_lookup mbind outcome_bind drop].
    rewrite bool_decide_eq_true_2 by done. cbn [orb].
    by rewrite front_matter_end_none. }
  split.
  - intros Hrest jekyll. split; [by apply Hpre|].
    intros. unfold md2gemini. by rewrite Hpre.
  - intros Hrest. unfold preprocess. rewrite Hlines.
    cbn [index lookup list_lookup mbind outcome_bind drop].
    rewrite bool_decide_eq_true_2 by done.
    by rewrite front_matter_end_jekyll.
Qed.

Lemma C8_unterminated_front_matter_witness :
  Py.splitlines (Py.strip (lit "---" ++ [LF] ++ lit "title: x" ++ [LF] ++ lit "body"))
    = lit "---" :: [lit "title: x"; lit "body"] ∧
  Forall (λ line, line ≠ lit "---" ∧ line ≠ lit "+++") [lit "title: x"; lit "body"] ∧
  preprocess true false (lit "---" ++ [LF] ++ lit "title: x" ++ [LF] ++ lit "body")
    = Ok (lit "---" ++ [LF] ++ lit "title: x" ++ [LF] ++ lit "body").
Proof.
  assert (Forall (λ line, line ≠ lit "---" ∧ line ≠ lit "+++") [lit "title: x"; lit "body"])
    as Hrest by (repeat constructor; done).
  split_and!; [reflexivity | done |].
  exact (proj1 (proj1 (C8_unterminated_front_matter
    (lit "---" ++ [LF] ++ lit "title: x" ++ [LF] ++ lit "body")
    [lit "title: x"; lit "body"] eq_refl) Hrest false)).
Defined.

(** C10 as stated fails when the closing line is the last line: the whole
    document is converted, not the empty rest. *)
Lemma C10_counterexample :
  ¬ (∀ (markdown first closing : str) (before after : list str),
       Py.splitlines (Py.strip markdown) = first :: before ++ closing :: after →
       first = lit "---" ∨ first = lit "+++" →
       closing = lit "---" ∨ closing = lit "+++" →
       Forall (λ line, line ≠ lit "---" ∧ line ≠ lit "+++") before →
       preprocess true false markdown = Ok (Py.join [LF] after)).
Proof.
  intros H.
  specialize (H (lit "---" ++ [LF] ++ lit "title: x" ++ [LF] ++ lit "---")
                (lit "---") (lit "---") [lit "title: x"] [] eq_refl
                (or_introl eq_refl) (or_introl eq_refl)).
  specialize (H ltac:(repeat constructor; done)).
  vm_compute in H. discriminate H.
Qed.

(** C10, amended.  With [frontmatter] set and a first line "---" or "+++",
    the first later line equal to "---" or to "+++" closes the block, whether
    or not it is the same as the first; if lines follow it, they are what
    the renderer gets, joined by [\n]; if none follows, the renderer gets the
    whole document. *)
Theorem C10_front_matter_closing (markdown first closing : str) (before after : list str)
    jekyll :
  Py.splitlines (Py.strip markdown) = first :: before ++ closing :: after →
  first = lit "---" ∨ first = lit "+++" →
  closing = lit "---" ∨ closing = lit "+++" →
  Forall (λ line, line ≠ lit "---" ∧ line ≠ lit "+++") before →
  (after ≠ [] →
     preprocess true jekyll markdown = Ok (Py.join [LF] after) ∧
     ∀ NEWLINE PD LD gem footnotes fuel opts,
       md2gemini NEWLINE PD LD gem footnotes fuel markdown opts true jekyll
       = postprocess NEWLINE PD LD fuel (links opts)
           (footnotes opts (Py.join [LF] after)) (gem opts (Py.join [LF] after))) ∧
  (after = [] → preprocess true jekyll markdown = Ok markdown).
Proof.
  intros Hlines Hfirst Hclosing Hbefore.
  assert (preprocess true jekyll markdown
          = if bool_decide (after ≠ []) then Ok (Py.join [LF] after) else Ok markdown) as Hpre.
  { unfold preprocess. rewrite Hlines.
    cbn [index lookup list_lookup mbind outcome_bind drop].
    assert (bool_decide (first = lit "---") || bool_decide (first = lit "+++") = true) as ->.
    { destruct Hfirst as [-> | ->]; by rewrite ?bool_decide_eq_true_2 by done. }
    by rewrite drop_0, front_matter_end_found, drop_past_closing by done. }
  split.
  - intros Hafter. rewrite bool_decide_eq_true_2 in Hpre by done.
    split; [done|]. intros. unfold md2gemini. by rewrite Hpre.
  - intros ->. by rewrite Hpre.
Qed.

Lemma C10_front_matter_closing_witness :
  Py.splitlines (Py.strip (lit "---" ++ [LF] ++ lit "title: x" ++ [LF] ++ lit "+++" ++
                           [LF] ++ lit "# T" ++ [LF] ++ lit "body"))
    = lit "---" :: [lit "title: x"] ++ lit "+++" :: [lit "# T"; lit "body"] ∧
  preprocess true false (lit "---" ++ [LF] ++ lit "title: x" ++ [LF] ++ lit "+++" ++
                         [LF] ++ lit "# T" ++ [LF] ++ lit "body")
    = Ok (lit "# T" ++ [LF] ++ lit "body").
Proof.
  split; [reflexivity|].
  refine (proj1 (proj1 (C10_front_matter_closing
    (lit "---" ++ [LF] ++ lit "title: x" ++ [LF] ++ lit "+++" ++ [LF] ++ lit "# T" ++
     [LF] ++ lit "body")
    (lit "---") (lit "+++") [lit "title: x"] [lit "# T"; lit "body"] false
    eq_refl (or_introl eq_refl) (or_intror eq_refl) _) _)).
  - repeat constructor; done.
  - done.
Defined.

(** * Further properties of the code *)

(** ** The two helpers, for any delimiter *)

Lemma startswith_prefix p : ∀ s, Py.startswith p s = true ↔ p `prefix_of` s.
Proof.
  induction p as [|a p IH]; intros s; simpl.
  - split; [intros _; apply prefix_nil | done].
  - destruct s as [|b s].
    + split; [done|]. by intros ?%prefix_nil_inv.
    + rewrite andb_true_iff, N.eqb_eq, IH. split.
      * intros [-> ?]. by apply prefix_cons.
      * intros H. split; [by eapply prefix_cons_inv_1 | by eapply prefix_cons_inv_2].
Qed.

Lemma startswith_app p s : Py.startswith p s = true → s = p ++ drop (length p) s.
Proof.
  intros [r ->]%startswith_prefix. by rewrite drop_app_length.
Qed.

Lemma split_go_nonempty_any sep : ∀ s skip, Py.split_go sep skip s ≠ [].
Proof.
  induction s as [|c s IH]; intros skip; simpl; [done|].
  destruct skip; [|apply IH]. destruct (Py.startswith _ _); [done|].
  by destruct (Py.split_go sep 0 s).
Qed.

Lemma join_cons_nonempty sep x l : l ≠ [] → Py.join sep (x :: l) = x ++ sep ++ Py.join sep l.
Proof. by destruct l. Qed.

Lemma join_app_cons sep l1 x l2 :
  l1 ≠ [] → Py.join sep (l1 ++ x :: l2) = Py.join sep l1 ++ sep ++ Py.join sep (x :: l2).
Proof.
  induction l1 as [|a l1 IH]; [done|]. intros _.
  destruct l1 as [|b l1]; [done|].
  change ((a :: b :: l1) ++ x :: l2) with (a :: ((b :: l1) ++ x :: l2)).
  rewrite join_cons_nonempty by done. rewrite IH by done.
  rewrite (join_cons_nonempty sep a (b :: l1)) by done. by rewrite <- !app_assoc.
Qed.

Lemma join_split_go_any sep : sep ≠ [] →
  ∀ s skip, Py.join sep (Py.split_go sep skip s) = drop skip s.
Proof.
  intros Hsep. induction s as [|c s IH]; intros skip.
  - by rewrite drop_nil.
  - cbn [Py.split_go]. destruct skip as [|k]; [|apply IH].
    destruct (Py.startswith sep (c :: s)) eqn:E.
    + rewrite join_cons_nonempty by apply split_go_nonempty_any.
      rewrite IH, drop_0. apply startswith_app in E.
      etrans; [|symmetry; exact E].
      destruct sep as [|c0 sep]; [done|]. simpl. by rewrite Nat.sub_0_r.
    + by rewrite join_cons_head, IH.
Qed.

Lemma split_go_length sep : ∀ s skip,
  length (Py.split_go sep skip s) = S (Py.count_go sep skip s).
Proof.
  induction s as [|c s IH]; intros skip; [done|].
  cbn [Py.split_go Py.count_go]. destruct skip as [|k]; [|apply IH].
  destruct (Py.startswith sep (c :: s)); [simpl; by rewrite IH|].
  rewrite <- IH. pose proof (split_go_nonempty_any sep s 0).
  by destruct (Py.split_go sep 0 s).
Qed.

Lemma split_go_pieces sep : sep ≠ [] →
  ∀ s skip, ∃ p ps,
    Py.split_go sep skip s = p :: ps ∧ p `prefix_of` drop skip s ∧
    Forall (λ q, Py.contains sep q = false) (p :: ps).
Proof.
  intros Hsep. induction s as [|c s IH]; intros skip.
  - exists [], []. split_and!; [done | apply prefix_nil |].
    repeat constructor. by destruct sep.
  - cbn [Py.split_go]. destruct skip as [|k]; [|apply IH].
    destruct (Py.startswith sep (c :: s)) eqn:E.
    + destruct (IH (length sep - 1)) as (p & ps & -> & _ & Hall).
      exists [], (p :: ps). split_and!; [done | apply prefix_nil |].
      constructor; [by destruct sep | done].
    + destruct (IH 0) as (p & ps & -> & Hpre & [Hp Hps]%Forall_cons).
      exists (c :: p), ps. split_and!; [done | by apply prefix_cons |].
      constructor; [|done]. cbn [Py.contains]. rewrite Hp, orb_false_r.
      destruct (Py.startswith sep (c :: p)) eqn:E'; [|done].
      apply startswith_prefix in E'. rewrite <- E. symmetry.
      apply startswith_prefix. etrans; [done|]. by apply prefix_cons.
Qed.

(** X1.  Putting back what [__text_between] returns, between two
    delimiters, with [__replace_between] gives the text again, when the
    text has a delimiter after the piece. *)
Theorem replace_between_round_trip (text delim : str) (n : nat) :
  delim ≠ [] → n + 2 ≤ Py.count text delim →
  ∃ between,
    __text_between text delim n = Ok between ∧
    __replace_between text delim (delim ++ between ++ delim) n = Ok text.
Proof.
  intros Hdelim Hn. unfold __text_between, __replace_between, Py.split, Py.count in *.
  destruct delim as [|d delim]; [done|]. cbn [mbind outcome_bind].
  set (sep := d :: delim) in *. set (parts := Py.split_go sep 0 text).
  assert (length parts = S (Py.count_go sep 0 text)) as Hlen by apply split_go_length.
  destruct (index_lt parts (n + 1) ltac:(lia)) as (between & -> & Hbetween).
  exists between. split; [done|]. f_equal.
  pose proof (join_split_go_any sep Hdelim text 0) as Hjoin. fold parts in Hjoin.
  rewrite drop_0 in Hjoin.
  assert (take (n + 1) parts ≠ []) as Htake.
  { intros E%(f_equal length). rewrite length_take in E. simpl in E. lia. }
  assert (drop (S (n + 1)) parts ≠ []) as Hdrop.
  { intros E%(f_equal length). rewrite length_drop in E. simpl in E. lia. }
  rewrite <- (take_drop_middle parts (n + 1) between Hbetween) in Hjoin.
  rewrite join_app_cons, join_cons_nonempty in Hjoin by done.
  replace (S (n + 1)) with (n + 2) in Hjoin by lia.
  rewrite <- Hjoin. by rewrite <- !app_assoc.
Qed.

Lemma replace_between_round_trip_witness :
  (Sample.PARAGRAPH_DELIM ≠ [] ∧
   0 + 2 ≤ Py.count ([2%N] ++ lit "a" ++ [2%N] ++ lit "b") Sample.PARAGRAPH_DELIM) ∧
  ∃ between,
    __text_between ([2%N] ++ lit "a" ++ [2%N] ++ lit "b") Sample.PARAGRAPH_DELIM 0
      = Ok between ∧
    __replace_between ([2%N] ++ lit "a" ++ [2%N] ++ lit "b") Sample.PARAGRAPH_DELIM
      (Sample.PARAGRAPH_DELIM ++ between ++ Sample.PARAGRAPH_DELIM) 0
      = Ok ([2%N] ++ lit "a" ++ [2%N] ++ lit "b").
Proof.
  assert (Sample.PARAGRAPH_DELIM ≠ []) as H1 by done.
  assert (0 + 2 ≤ Py.count ([2%N] ++ lit "a" ++ [2%N] ++ lit "b") Sample.PARAGRAPH_DELIM)
    as H2 by (vm_compute; lia).
  split; [done|].
  exact (replace_between_round_trip _ _ 0 H1 H2).
Defined.

(** X2.  With an empty delimiter both helpers raise [ValueError].  With a
    text that has no more than [n] delimiters, [__text_between] raises
    [IndexError], and [__replace_between] raises nothing: it returns the
    text with the new text put after it. *)
Theorem helpers_few_delimiters (text delim new_text : str) (n : nat) :
  (__text_between text [] n = Raise ValueError ∧
   __replace_between text [] new_text n = Raise ValueError) ∧
  (delim ≠ [] → Py.count text delim ≤ n →
   __text_between text delim n = Raise IndexError ∧
   __replace_between text delim new_text n = Ok (text ++ new_text)).
Proof.
  split; [done|]. intros Hdelim Hn.
  unfold __text_between, __replace_between, Py.split, Py.count in *.
  destruct delim as [|d delim]; [done|]. cbn [mbind outcome_bind].
  set (sep := d :: delim) in *. set (parts := Py.split_go sep 0 text).
  assert (length parts = S (Py.count_go sep 0 text)) as Hlen by apply split_go_length.
  pose proof (join_split_go_any sep Hdelim text 0) as Hjoin. fold parts in Hjoin.
  rewrite drop_0 in Hjoin. split.
  - unfold index. by rewrite lookup_ge_None_2 by lia.
  - rewrite take_ge, drop_ge, Hjoin by lia. by rewrite app_nil_r.
Qed.

Lemma helpers_few_delimiters_witness :
  (Sample.PARAGRAPH_DELIM ≠ [] ∧ Py.count (lit "abc") Sample.PARAGRAPH_DELIM ≤ 0) ∧
  __text_between (lit "abc") Sample.PARAGRAPH_DELIM 0 = Raise IndexError ∧
  __replace_between (lit "abc") Sample.PARAGRAPH_DELIM (lit "new") 0 = Ok (lit "abcnew").
Proof.
  assert (Sample.PARAGRAPH_DELIM ≠ []) as H1 by done.
  assert (Py.count (lit "abc") Sample.PARAGRAPH_DELIM ≤ 0) as H2 by (vm_compute; lia).
  split; [done|].
  exact (proj2 (helpers_few_delimiters (lit "abc") Sample.PARAGRAPH_DELIM (lit "new") 0) H1 H2).
Defined.

(** X3.  The text [__text_between] returns has no occurrence of the
    delimiter. *)
Theorem text_between_no_delimiter (text delim between : str) (n : nat) :
  __text_between text delim n = Ok between → Py.contains delim between = false.
Proof.
  unfold __text_between, Py.split. destruct delim as [|d delim]; [done|].
  cbn [mbind outcome_bind]. unfold index.
  destruct (_ !! _) as [piece|] eqn:Hpiece; [|done]. intros [= <-].
  destruct (split_go_pieces (d :: delim) ltac:(done) text 0) as (p & ps & Hsplit & _ & Hall).
  rewrite Hsplit in Hpiece. apply list_elem_of_lookup_2 in Hpiece.
  by apply (proj1 (Forall_forall _ _) Hall).
Qed.

Lemma text_between_no_delimiter_witness :
  __text_between (lit "x--a--y") (lit "--") 0 = Ok (lit "a") ∧
  Py.contains (lit "--") (lit "a") = false.
Proof.
  split; [reflexivity|].
  exact (text_between_no_delimiter (lit "x--a--y") (lit "--") (lit "a") 0 eq_refl).
Defined.

(** ** Every paragraph where it stands *)

Lemma resolve_marked NEWLINE pd (tail : str) :
  pd ∉ NEWLINE → pd ≠ LF → pd ≠ SP → pd ∉ tail →
  ∀ (pairs : list (str * str)) (done : str) fuel,
    Forall (λ ab, (pd ∉ ab.1) ∧ (pd ∉ ab.2)) pairs → pd ∉ done →
    resolve_paragraphs NEWLINE [pd] (length pairs + fuel)
      (done ++ Shape.marked pd pairs ++ tail)
    = Ok (done ++ Shape.resolved NEWLINE pairs ++ tail).
Proof.
  intros Hnl Hlf Hsp Htail. induction pairs as [|[a b] pairs IH]; intros done fuel Hall Hdone.
  - apply resolve_absent. by apply not_elem_of_app.
  - apply Forall_cons in Hall as [[Ha Hb] Hall]. simpl in Ha, Hb.
    assert (done ++ Shape.marked pd ((a, b) :: pairs) ++ tail
            = (done ++ a) ++ pd :: b ++ pd :: (Shape.marked pd pairs ++ tail)) as ->.
    { unfold Shape.marked. cbn [fmap list_fmap concat]. by simplify_list_eq. }
    assert (done ++ Shape.resolved NEWLINE ((a, b) :: pairs) ++ tail
            = ((done ++ a) ++ Py.replace [LF] [SP] (Py.replace [CR; LF] [LF] (Py.strip b)) ++
               NEWLINE ++ NEWLINE) ++ Shape.resolved NEWLINE pairs ++ tail) as ->.
    { unfold Shape.resolved. cbn [fmap list_fmap concat]. by simplify_list_eq. }
    cbn [length Nat.add].
    rewrite resolve_unfold by (apply elem_of_app; right; by left).
    rewrite paragraph_step_pair by (by rewrite ?not_elem_of_app).
    cbn [mbind outcome_bind]. rewrite <- IH with (fuel := fuel); [|done|].
    + f_equal. by simplify_list_eq.
    + pose proof (folded_absent NEWLINE pd Hnl Hlf Hsp b Hb).
      by rewrite !not_elem_of_app in *.
Qed.

(** X4.  For a paragraph marker of one character that is neither [\n] nor a
    space and is not in [NEWLINE]: on a text whose markers pair up, the loop
    resolves every paragraph where it stands and changes nothing of the text
    before, between and after the paragraphs; as many iterations as there
    are paragraphs are enough. *)
Theorem paragraphs_resolved_in_place NEWLINE pd (pairs : list (str * str)) (tail : str) fuel :
  pd ∉ NEWLINE → pd ≠ LF → pd ≠ SP →
  Forall (λ ab, (pd ∉ ab.1) ∧ (pd ∉ ab.2)) pairs → pd ∉ tail →
  length pairs ≤ fuel →
  resolve_paragraphs NEWLINE [pd] fuel (Shape.marked pd pairs ++ tail)
  = Ok (Shape.resolved NEWLINE pairs ++ tail).
Proof.
  intros Hnl Hlf Hsp Hall Htail Hfuel.
  replace fuel with (length pairs + (fuel - length pairs)) by lia.
  apply (resolve_marked NEWLINE pd tail Hnl Hlf Hsp Htail pairs []); [done|].
  apply not_elem_of_nil.
Qed.

Lemma paragraphs_resolved_in_place_witness :
  resolve_paragraphs Sample.NEWLINE [2%N] 2
    (Shape.marked 2%N [(lit "# T" ++ [CR; LF], lit "one" ++ [LF] ++ lit "two");
                       (lit "* x" ++ [CR; LF], lit " three ")] ++ lit "end")
  = Ok (lit "# T" ++ [CR; LF] ++ lit "one two" ++ [CR; LF; CR; LF] ++
        lit "* x" ++ [CR; LF] ++ lit "three" ++ [CR; LF; CR; LF] ++ lit "end").
Proof.
  refine (paragraphs_resolved_in_place Sample.NEWLINE 2%N
    [(lit "# T" ++ [CR; LF], lit "one" ++ [LF] ++ lit "two");
     (lit "* x" ++ [CR; LF], lit " three ")] (lit "end") 2 _ _ _ _ _ _).
  - compute_done.
  - done.
  - done.
  - repeat constructor; compute_done.
  - compute_done.
  - simpl. lia.
Defined.

(** ** The pass over the lines, read without the update in place *)

Lemma lstrip_fence line : Shape.is_fence line = true → Py.lstrip line = line.
Proof.
  unfold Shape.is_fence. destruct line as [|c line]; [done|]. simpl.
  destruct c as [|p]; [done|]. intros [Hc _]%andb_true_iff.
  apply Pos.eqb_eq in Hc as <-. done.
Qed.

(** The loop with its update of the next line does what [Shape.strip_pass]
    does with its flag: [done] are the lines gone through and [rest] the
    lines to come, the first of them stripped already if it was asked. *)
Lemma strip_after_links_pass len : ∀ (rest done : list str) pre pending n,
  len = length done + length rest → length rest ≤ n →
  strip_after_links n (length done) len pre
    (done ++ match rest with
             | x :: r => (if pending : bool then Py.lstrip x else x) :: r
             | [] => []
             end)
  = Ok (done ++ Shape.strip_pass len pending pre (length done) rest).
Proof.
  induction rest as [|x r IH]; intros done pre pending n Hlen Hn.
  - rewrite app_nil_r. destruct n; cbn [strip_after_links]; [by rewrite app_nil_r|].
    rewrite lookup_ge_None_2 by lia. by rewrite app_nil_r.
  - destruct n as [|n]; [simpl in Hn; lia|].
    cbn [strip_after_links Shape.strip_pass].
    set (x' := if pending then Py.lstrip x else x).
    rewrite list_lookup_middle by done.
    unfold Shape.is_fence, Shape.is_link.
    assert (∀ pre' pending',
      strip_after_links n (S (length done)) len pre'
        (done ++ x' :: match r with
                       | y :: r' => (if pending' : bool then Py.lstrip y else y) :: r'
                       | [] => []
                       end)
      = Ok (done ++ x' :: Shape.strip_pass len pending' pre' (S (length done)) r)) as Hnext.
    { intros pre' pending'.
      specialize (IH (done ++ [x']) pre' pending' n).
      rewrite length_app, Nat.add_1_r, <- !app_assoc in IH. cbn [app] in IH.
      apply IH; simpl in *; lia. }
    destruct (Py.startswith (lit "```") x').
    { rewrite <- (Hnext (negb pre) false). by destruct r. }
    destruct (_ && _) eqn:Hguard.
    + apply andb_true_iff in Hguard as [[Hi%Z.ltb_lt _]%andb_true_iff _].
      destruct r as [|y r']; [simpl in Hlen; lia|].
      unfold index. rewrite (cons_middle x' done), app_assoc.
      rewrite list_lookup_middle by (rewrite length_app; simpl; lia).
      cbn [mbind outcome_bind].
      replace (length done + 1) with (length (done ++ [x']) + 0)
        by (rewrite length_app; simpl; lia).
      rewrite insert_app_r. cbn [insert list_insert]. rewrite <- app_assoc.
      apply (Hnext pre true).
    + rewrite <- (Hnext pre false). by destruct r.
Qed.

Lemma strip_after_links_as_pass (gemlines : list str) :
  strip_after_links (length gemlines) 0 (length gemlines) false gemlines
  = Ok (Shape.strip_pass (length gemlines) false false 0 gemlines).
Proof.
  pose proof (strip_after_links_pass (length gemlines) gemlines [] false false
                (length gemlines) eq_refl (le_n _)) as H.
  cbn [app length] in H. rewrite <- H. by destruct gemlines.
Qed.

Ltac lookup_cons :=
  repeat match goal with
  | |- context [(?x :: ?l) !! S ?j] => change ((x :: l) !! S j) with (l !! j)
  | |- context [(?x :: ?l) !! 0] => change ((x :: l) !! 0) with (Some x)
  | H : context [(?x :: ?l) !! S ?j] |- _ => change ((x :: l) !! S j) with (l !! j) in H
  end.

Lemma strip_pass_lines len : ∀ (lines : list str) pending pre i,
  length (Shape.strip_pass len pending pre i lines) = length lines ∧
  Shape.strip_pass len pending pre i lines !! 0
    = (λ line, if pending then Py.lstrip line else line) <$> lines !! 0 ∧
  (∀ j line, lines !! S j = Some line →
     Shape.strip_pass len pending pre i lines !! S j = Some line ∨
     (Shape.strip_pass len pending pre i lines !! S j = Some (Py.lstrip line) ∧
      ∃ prev, Shape.strip_pass len pending pre i lines !! j = Some prev ∧
              Shape.is_link prev = true ∧ Shape.is_fence prev = false)).
Proof.
  induction lines as [|x r IH]; intros pending pre i; [done|].
  cbn [Shape.strip_pass]. set (x' := if pending then Py.lstrip x else x).
  destruct (Shape.is_fence x') eqn:Hfence.
  - destruct (IH false (negb pre) (S i)) as (Hlen & H0 & HS).
    split_and!; [simpl; by rewrite Hlen | done |].
    intros [|j] line Hline; lookup_cons.
    + left. by rewrite H0, Hline.
    + by apply HS.
  - set (pending' := _ && _ && _).
    destruct (IH pending' pre (S i)) as (Hlen & H0 & HS).
    split_and!; [simpl; by rewrite Hlen | done |].
    intros [|j] line Hline; lookup_cons.
    + rewrite H0, Hline. cbn [fmap option_fmap option_map].
      destruct pending' eqn:Hp; [|by left]. right. split; [done|].
      exists x'. split; [done|].
      by apply andb_true_iff in Hp as [[_ ?]%andb_true_iff _].
    + by apply HS.
Qed.

(** X5.  The pass over the lines raises nothing and keeps the number of
    lines and the first line.  A line is either kept or stripped of its
    leading white space, and it is stripped only when the line before it, as
    the pass leaves it, begins with "=>" and not with the fence. *)
Theorem strip_after_links_changes (gemlines : list str) :
  ∃ out,
    strip_after_links (length gemlines) 0 (length gemlines) false gemlines = Ok out ∧
    length out = length gemlines ∧
    out !! 0 = gemlines !! 0 ∧
    (∀ j line, gemlines !! S j = Some line →
       out !! S j = Some line ∨
       (out !! S j = Some (Py.lstrip line) ∧
        ∃ prev, out !! j = Some prev ∧
                Py.startswith (lit "=>") prev = true ∧
                Py.startswith (lit "```") prev = false)).
Proof.
  eexists. split; [apply strip_after_links_as_pass|].
  destruct (strip_pass_lines (length gemlines) gemlines false false 0) as (Hlen & H0 & HS).
  split_and!; [done| |done].
  rewrite H0. by destruct gemlines.
Qed.

Lemma strip_after_links_changes_witness :
  [lit "* x"; lit "=> u"; lit "  * y"; lit "end"] !! 2 = Some (lit "  * y") ∧
  strip_after_links 4 0 4 false [lit "* x"; lit "=> u"; lit "  * y"; lit "end"]
    = Ok [lit "* x"; lit "=> u"; lit "* y"; lit "end"].
Proof.
  split; [done|].
  destruct (strip_after_links_changes [lit "* x"; lit "=> u"; lit "  * y"; lit "end"])
    as (out & Hout & _ & _ & HS).
  cbn [length] in Hout. etrans; [exact Hout|]. rewrite <- Hout. reflexivity.
Defined.

Lemma not_fence_lstrip line :
  Shape.is_fence (Py.lstrip line) = false → Shape.is_fence line = false.
Proof.
  intros H. destruct (Shape.is_fence line) eqn:E; [|done].
  by rewrite (lstrip_fence line E), E in H.
Qed.

Lemma strip_pass_body len (rest : list str) : ∀ (body : list str) i,
  Forall (λ line, Shape.is_fence line = false) body →
  Shape.strip_pass len false true i (body ++ rest)
  = body ++ Shape.strip_pass len false true (i + length body) rest.
Proof.
  induction body as [|x body IH]; intros i Hbody.
  - simpl. by rewrite Nat.add_0_r.
  - apply Forall_cons in Hbody as [Hx Hbody].
    cbn [app Shape.strip_pass length]. rewrite Hx, andb_false_r, IH by done.
    do 3 f_equal. lia.
Qed.

Lemma strip_pass_fenced len (rest : list str) pending i opening body closing :
  Shape.well_formed (Shape.Fenced opening body closing) →
  Shape.strip_pass len pending false i
    (Shape.segment_lines (Shape.Fenced opening body closing) ++ rest)
  = Shape.segment_lines (Shape.Fenced opening body closing) ++
    Shape.strip_pass len false false (i + length body + 2) rest.
Proof.
  intros (Ho & Hbody & Hc). cbn [Shape.segment_lines].
  replace (i + length body + 2) with (S (S i + length body)) by lia.
  rewrite <- !app_comm_cons, <- !app_assoc. cbn [app Shape.strip_pass].
  assert ((if pending then Py.lstrip opening else opening) = opening) as ->.
  { destruct pending; [by apply lstrip_fence | done]. }
  rewrite Ho. cbn [negb]. rewrite strip_pass_body by done.
  cbn [Shape.strip_pass]. by rewrite Hc.
Qed.

Lemma strip_pass_plain len (rest : list str) : ∀ (lines : list str) pending i,
  Forall (λ line, Shape.is_fence (Py.lstrip line) = false) lines →
  ∃ lines' pending',
    Shape.strip_pass len pending false i (lines ++ rest)
    = lines' ++ Shape.strip_pass len pending' false (i + length lines) rest ∧
    length lines' = length lines.
Proof.
  induction lines as [|x lines IH]; intros pending i Hall.
  - exists [], pending. simpl. by rewrite Nat.add_0_r.
  - apply Forall_cons in Hall as [Hx Hall].
    cbn [app Shape.strip_pass].
    assert (Shape.is_fence (if pending then Py.lstrip x else x) = false) as ->.
    { destruct pending; [done | by apply not_fence_lstrip]. }
    set (next := _ && _ && _).
    destruct (IH next (S i) Hall) as (lines' & pending' & -> & Hlen).
    eexists (_ :: lines'), pending'. split; [|simpl; by rewrite Hlen].
    cbn [app length]. replace (i + S (length lines)) with (S i + length lines) by lia.
    done.
Qed.

Lemma strip_pass_segments len : ∀ (segs : list Shape.segment) pending i,
  Forall Shape.well_formed segs →
  ∃ segs',
    Shape.strip_pass len pending false i (Shape.lines_of segs) = Shape.lines_of segs' ∧
    Forall2 Shape.same_shape segs segs'.
Proof.
  induction segs as [|seg segs IH]; intros pending i Hall.
  - exists []. by split.
  - apply Forall_cons in Hall as [Hseg Hall].
    change (Shape.lines_of (seg :: segs))
      with (Shape.segment_lines seg ++ Shape.lines_of segs).
    destruct seg as [lines|opening body closing].
    + cbn [Shape.segment_lines].
      destruct (strip_pass_plain len (Shape.lines_of segs) lines pending i Hseg)
        as (lines' & pending' & -> & Hlen).
      destruct (IH pending' (i + length lines) Hall) as (segs' & -> & Hshape).
      exists (Shape.Plain lines' :: segs'). split; [done|].
      constructor; [by exists lines' | done].
    + rewrite strip_pass_fenced by done.
      destruct (IH false (i + length body + 2) Hall) as (segs' & -> & Hshape).
      exists (Shape.Fenced opening body closing :: segs'). split; [done|].
      by constructor.
Qed.

(** X6.  On lines made of preformatted regions between two fence lines and,
    outside them, of runs of lines none of which begins with the fence,
    neither as it is nor once its leading white space is taken off (such a
    line, stripped after a link line, would open a region): the pass returns
    every preformatted region as it is, fence lines and lines between them,
    also where a line of it begins with "=>" or with white space; the runs
    keep their number of lines. *)
Theorem preformatted_regions_kept (segs : list Shape.segment) :
  Forall Shape.well_formed segs →
  ∃ segs',
    strip_after_links (length (Shape.lines_of segs)) 0 (length (Shape.lines_of segs)) false
      (Shape.lines_of segs) = Ok (Shape.lines_of segs') ∧
    Forall2 Shape.same_shape segs segs'.
Proof.
  intros Hall. rewrite strip_after_links_as_pass.
  destruct (strip_pass_segments (length (Shape.lines_of segs)) segs false 0 Hall)
    as (segs' & -> & Hshape).
  by exists segs'.
Qed.

Lemma preformatted_regions_kept_witness :
  Forall Shape.well_formed
    [Shape.Plain [lit "=> u"; lit "  text"];
     Shape.Fenced (lit "```") [lit "=> not a real link"; lit "   indented"] (lit "```");
     Shape.Plain [lit "end"; lit "last"]] ∧
  strip_after_links 8 0 8 false
    [lit "=> u"; lit "  text"; lit "```"; lit "=> not a real link"; lit "   indented";
     lit "```"; lit "end"; lit "last"]
  = Ok [lit "=> u"; lit "text"; lit "```"; lit "=> not a real link"; lit "   indented";
        lit "```"; lit "end"; lit "last"].
Proof.
  assert (Forall Shape.well_formed
    [Shape.Plain [lit "=> u"; lit "  text"];
     Shape.Fenced (lit "```") [lit "=> not a real link"; lit "   indented"] (lit "```");
     Shape.Plain [lit "end"; lit "last"]]) as Hall.
  { repeat constructor. }
  split; [done|].
  destruct (preformatted_regions_kept _ Hall) as (segs' & Hout & _).
  cbv [Shape.lines_of Shape.segment_lines fmap list_fmap concat app length] in Hout.
  etrans; [exact Hout|]. rewrite <- Hout. reflexivity.
Defined.

(** ** Line breaks of the result *)





(** ** When the conversion raises *)

Lemma at_newline_replicate ld m : ld ≠ LF → at_newline (replicate m ld) = false.
Proof.
  intros Hld. assert ((LF =? ld)%N = false) as Hlf by (apply N.eqb_neq; congruence).
  destruct m as [|[|m]]; unfold at_newline; cbn [replicate Py.startswith];
    by rewrite ?Hlf, ?andb_false_r.
Qed.

Lemma sub_go_replicate ld m : ∀ prev,
  ld ≠ LF → prev ≠ Some LF → sub_go [ld] prev 0 (replicate m ld) = replicate m ld.
Proof.
  induction m as [|m IH]; intros prev Hld Hprev; [done|].
  cbn [replicate]. rewrite sub_go_cons, at_newline_replicate by done.
  rewrite bool_decide_eq_false_2 by done. rewrite andb_false_r.
  f_equal. apply IH; [done|]. congruence.
Qed.

Lemma resolve_links_nonempty NEWLINE ld (gemtext : str) :
  NEWLINE ≠ [] → ld ∉ NEWLINE → ld ≠ LF → gemtext ≠ [] →
  resolve_links NEWLINE [ld] gemtext ≠ [].
Proof.
  intros Hne Hnl Hlf Hg.
  destruct (decide (Forall (λ x, ld = x) gemtext)) as [Hall|Hex].
  - assert (∃ n, gemtext = replicate n ld) as [[|n] ->]; [|done|].
    { exists (length gemtext). symmetry. by apply replicate_as_Forall. }
    unfold resolve_links, re_sub_link_delims.
    pose proof (collapse_run ld (S n) [] ltac:(done)) as Hrun.
    rewrite !app_nil_r in Hrun. cbn [app]. rewrite Hrun.
    rewrite sub_go_replicate by done.
    cbn [Nat.div2 replicate]. rewrite replace_one_cons, N.eqb_refl.
    by destruct NEWLINE.
  - apply not_Forall_Exists in Hex; [|apply _].
    apply Exists_exists in Hex as (x & Hx & Hne').
    intros E. pose proof (resolve_links_keeps NEWLINE ld x gemtext ltac:(congruence) Hx) as H.
    rewrite E in H. by apply elem_of_nil in H.
Qed.

(** X8.  For markers of one character outside a non-empty [NEWLINE], the
    paragraph marker neither [\n] nor a space and the link marker not [\n]:
    with iterations enough for the markers, the post-processing raises
    [IndexError] on the empty text outside the at-end mode, and returns a
    text in every other case. *)
Theorem postprocess_raises_on_empty_only NEWLINE pd ld links footnotes (gemtext : str) fuel :
  pd ∉ NEWLINE → pd ≠ LF → pd ≠ SP → ld ∉ NEWLINE → ld ≠ LF → NEWLINE ≠ [] →
  Py.count gemtext [pd] ≤ fuel →
  if bool_decide (gemtext = []) && negb (bool_decide (links = lit "at-end"))
  then postprocess NEWLINE [pd] [ld] fuel links footnotes gemtext = Raise IndexError
  else ∃ out, postprocess NEWLINE [pd] [ld] fuel links footnotes gemtext = Ok out.
Proof.
  intros Hpd Hlf Hsp Hld Hldlf Hne Hfuel.
  destruct (resolve_terminates NEWLINE pd Hpd Hlf Hsp _ gemtext (le_n _)) as (g1 & Hg1 & Hres).
  specialize (Hres fuel Hfuel). unfold postprocess. rewrite Hres. cbn [mbind outcome_bind].
  assert (gemtext ≠ [] → g1 ≠ []) as Hnonempty.
  { intros Hg. destruct (decide (pd ∈ gemtext)) as [Hin|Hout].
    - destruct NEWLINE as [|x nl] eqn:E; [done|]. rewrite <- E in *.
      assert (x ∈ g1) as Hx.
      { eapply (resolve_newline NEWLINE pd); [done..|]. rewrite E. by left. }
      intros ->. by apply elem_of_nil in Hx.
    - rewrite resolve_absent in Hres by done. by injection Hres as <-. }
  case_bool_decide as Hg; cbn [andb].
  - unfold add_footnotes. case_bool_decide as Hlinks; cbn [negb].
    + apply clean_lines_ok, resolve_links_nonempty; [done..|].
      subst gemtext. rewrite resolve_absent in Hres by apply not_elem_of_nil.
      injection Hres as <-. by destruct NEWLINE.
    + subst gemtext. rewrite resolve_absent in Hres by apply not_elem_of_nil.
      by injection Hres as <-.
  - apply clean_lines_ok, resolve_links_nonempty; [done..|].
    unfold add_footnotes. case_bool_decide; [|by apply Hnonempty].
    specialize (Hnonempty Hg). by destruct g1.
Qed.

Lemma postprocess_raises_on_empty_only_witness :
  ((2%N ∉ Sample.NEWLINE) ∧ 2%N ≠ LF ∧ 2%N ≠ SP ∧ (3%N ∉ Sample.NEWLINE) ∧ 3%N ≠ LF ∧
   Sample.NEWLINE ≠ [] ∧ Py.count [] [2%N] ≤ 0) ∧
  postprocess Sample.NEWLINE [2%N] [3%N] 0 (lit "newline") [] [] = Raise IndexError.
Proof.
  split; [split_and!; (done || compute_done || (vm_compute; lia))|].
  refine (postprocess_raises_on_empty_only Sample.NEWLINE 2%N 3%N (lit "newline") [] [] 0
            _ _ _ _ _ _ _); (done || compute_done || (vm_compute; lia)).
Defined.

(** X9.  The pre-processing raises [IndexError] when [frontmatter] or
    [jekyll] is set and the document is empty or white space only, and
    returns a text in every other case. *)
Theorem preprocess_raises_on_blank_only frontmatter jekyll (markdown : str) :
  if (frontmatter || jekyll) && bool_decide (Py.strip markdown = [])
  then preprocess frontmatter jekyll markdown = Raise IndexError
  else ∃ out, preprocess frontmatter jekyll markdown = Ok out.
Proof.
  unfold preprocess.
  destruct frontmatter, jekyll; cbn [orb andb]; try (by eexists);
    (case_bool_decide as Hblank;
     [ by rewrite Hblank
     | apply splitlines_nonempty in Hblank;
       destruct (Py.splitlines (Py.strip markdown)) as [|first rest] eqn:Hlines; [done|];
       cbn [index lookup list_lookup mbind outcome_bind];
       destruct (_ : bool); [destruct (bool_decide _)|]; by eexists ]).
Qed.

(** ** Front matter, the other cases *)

(** X10.  A document whose first line is not a front-matter delimiter goes
    to the renderer as it is, with its leading and trailing white space:
    for [frontmatter] a first line other than "---" and "+++", for [jekyll]
    alone a first line other than "---", so that a "+++" block stays. *)
Theorem preprocess_keeps_document frontmatter jekyll (markdown first : str)
    (rest : list str) :
  Py.splitlines (Py.strip markdown) = first :: rest →
  first ≠ lit "---" → first ≠ lit "+++" ∨ frontmatter = false →
  preprocess frontmatter jekyll markdown = Ok markdown.
Proof.
  intros Hlines Hdash Hplus. unfold preprocess. rewrite Hlines.
  destruct frontmatter.
  - destruct Hplus as [Hplus|?]; [|done].
    cbn [index lookup list_lookup mbind outcome_bind].
    by rewrite !bool_decide_eq_false_2 by done.
  - destruct jekyll; [|done].
    cbn [index lookup list_lookup mbind outcome_bind].
    by rewrite bool_decide_eq_false_2 by done.
Qed.

Lemma preprocess_keeps_document_witness :
  Py.splitlines (Py.strip (lit "+++" ++ [LF] ++ lit "t = 1" ++ [LF] ++ lit "+++" ++ [LF] ++
                           lit "body" ++ [LF]))
    = lit "+++" :: [lit "t = 1"; lit "+++"; lit "body"] ∧
  preprocess false true (lit "+++" ++ [LF] ++ lit "t = 1" ++ [LF] ++ lit "+++" ++ [LF] ++
                         lit "body" ++ [LF])
    = Ok (lit "+++" ++ [LF] ++ lit "t = 1" ++ [LF] ++ lit "+++" ++ [LF] ++ lit "body" ++ [LF]).
Proof.
  split; [reflexivity|].
  refine (preprocess_keeps_document false true _ (lit "+++")
            [lit "t = 1"; lit "+++"; lit "body"] _ _ _);
    [reflexivity | done | by right].
Defined.

Lemma front_matter_end_jekyll_found lines before after : ∀ i,
  lit "---" ∉ before →
  front_matter_end false true lines i (before ++ lit "---" :: after)
  = drop (i + length before + 2) lines.
Proof.
  induction before as [|line before IH]; intros i Hbefore.
  - cbn [app front_matter_end orb andb length]. rewrite Nat.add_0_r.
    by rewrite bool_decide_eq_true_2 by done.
  - apply not_elem_of_cons in Hbefore as [Hline Hbefore].
    cbn [app front_matter_end orb andb length].
    rewrite !bool_decide_eq_false_2 by done. cbn [orb].
    rewrite IH by done. f_equal. lia.
Qed.

(** X11.  With [jekyll] alone, front matter opens with "---" and the first
    later "---" line closes it, a "+++" line before it does not; the lines
    after the closing line, joined by [\n], go to the renderer, and the
    whole document if there is none. *)
Theorem jekyll_front_matter (markdown : str) (before after : list str) :
  Py.splitlines (Py.strip markdown) = lit "---" :: before ++ lit "---" :: after →
  lit "---" ∉ before →
  preprocess false true markdown
  = Ok (if bool_decide (after = []) then markdown else Py.join [LF] after).
Proof.
  intros Hlines Hbefore. unfold preprocess. rewrite Hlines.
  cbn [index lookup list_lookup mbind outcome_bind drop].
  rewrite bool_decide_eq_true_2 by done.
  rewrite drop_0, front_matter_end_jekyll_found, drop_past_closing by done.
  by repeat case_bool_decide.
Qed.

Lemma jekyll_front_matter_witness :
  (Py.splitlines (Py.strip (lit "---" ++ [LF] ++ lit "+++" ++ [LF] ++ lit "---" ++ [LF] ++
                            lit "a" ++ [LF] ++ lit "b"))
     = lit "---" :: [lit "+++"] ++ lit "---" :: [lit "a"; lit "b"] ∧
   (lit "---" ∉ [lit "+++"])) ∧
  preprocess false true (lit "---" ++ [LF] ++ lit "+++" ++ [LF] ++ lit "---" ++ [LF] ++
                         lit "a" ++ [LF] ++ lit "b")
    = Ok (lit "a" ++ [LF] ++ lit "b").
Proof.
  assert (lit "---" ∉ [lit "+++"]) as H by compute_done.
  split; [split; [reflexivity | done]|].
  refine (jekyll_front_matter _ [lit "+++"] [lit "a"; lit "b"] _ H). reflexivity.
Defined.

(** ** Link markers, the text without them *)


Lemma replace_one_none ld new (s : str) : ld ∉ s → Py.replace [ld] new s = s.
Proof.
  induction s as [|x s IH]; [done|].
  intros [Hx Hs]%not_elem_of_cons. rewrite replace_one_cons, IH by done.
  by assert ((ld =? x)%N = false) as -> by by apply N.eqb_neq.
Qed.



(** ** Line breaks at the end of the text *)

Lemma splitlines_go_last_line z n : ∀ (s : str) cur,
  length s ≤ n → Py.is_linebreak z = false →
  ∃ init cur', cur' ≠ [] ∧
    ∀ t, Py.splitlines_go cur (s ++ z :: t) = init ++ Py.splitlines_go cur' t.
Proof.
  induction n as [|n IH]; intros s cur Hn Hz.
  - destruct s; [|simpl in Hn; lia]. exists [], (z :: cur). split; [done|].
    intros t. simpl. by rewrite Hz.
  - destruct s as [|c s].
    { exists [], (z :: cur). split; [done|]. intros t. simpl. by rewrite Hz. }
    simpl in Hn. cbn [app Py.splitlines_go]. destruct (Py.is_linebreak c).
    + destruct s as [|d s].
      * destruct (IH [] [] ltac:(simpl; lia) Hz) as (init & cur' & Hcur' & Ht).
        exists (reverse cur :: init), cur'. split; [done|]. intros t. cbn [app].
        assert ((z =? LF)%N = false) as ->.
        { apply N.eqb_neq. intros ->. done. }
        rewrite andb_false_r. exact (f_equal (cons (reverse cur)) (Ht t)).
      * cbn [app]. destruct ((c =? CR)%N && (d =? LF)%N).
        -- destruct (IH s [] ltac:(simpl in Hn; lia) Hz) as (init & cur' & Hcur' & Ht).
           exists (reverse cur :: init), cur'. split; [done|]. intros t.
           exact (f_equal (cons (reverse cur)) (Ht t)).
        -- destruct (IH (d :: s) [] ltac:(lia) Hz) as (init & cur' & Hcur' & Ht).
           exists (reverse cur :: init), cur'. split; [done|]. intros t.
           exact (f_equal (cons (reverse cur)) (Ht t)).
    + apply (IH s (c :: cur) ltac:(lia) Hz).
Qed.

(** X13.  One line break at the end of the text, or two, are not in the
    result: the text with [\n], [\r\n], [\n\n] or [\r\n\r\n] after a last
    character that breaks no line gives what the text without them
    gives. *)
Theorem trailing_line_breaks_dropped NEWLINE (gemtext : str) z (t : str) :
  Py.is_linebreak z = false →
  t = [LF] ∨ t = [CR; LF] ∨ t = [LF; LF] ∨ t = [CR; LF; CR; LF] →
  clean_lines NEWLINE (gemtext ++ z :: t) = clean_lines NEWLINE (gemtext ++ [z]).
Proof.
  intros Hz Ht.
  destruct (splitlines_go_last_line z (length gemtext) gemtext [] (le_n _) Hz)
    as (init & cur' & Hcur' & Hsplit).
  unfold clean_lines, Py.splitlines. rewrite !Hsplit.
  assert (reverse cur' ≠ []) as Hlast.
  { intros E%(f_equal reverse). by rewrite reverse_involutive in E. }
  assert (Py.splitlines_go cur' [] = [reverse cur']) as -> by by destruct cur'.
  assert (
    index (init ++ [reverse cur'; []]) (length (init ++ [reverse cur'; []]) - 1) ≫=
      (λ final, lines ← (let gemlines :=
          if bool_decide (final = [])
          then take (length (init ++ [reverse cur'; []]) - 1) (init ++ [reverse cur'; []])
          else init ++ [reverse cur'; []] in
          strip_after_links (length gemlines) 0 (length gemlines) false gemlines);
        Ok (Py.join NEWLINE lines))
    = index (init ++ [reverse cur']) (length (init ++ [reverse cur']) - 1) ≫=
      (λ final, lines ← (let gemlines :=
          if bool_decide (final = [])
          then take (length (init ++ [reverse cur']) - 1) (init ++ [reverse cur'])
          else init ++ [reverse cur'] in
          strip_after_links (length gemlines) 0 (length gemlines) false gemlines);
        Ok (Py.join NEWLINE lines))) as Htwo.
  { unfold index. rewrite !length_app. cbn [length].
    replace (length init + 2 - 1) with (length init + 1) by lia.
    replace (length init + 1 - 1) with (length init + 0) by lia.
    rewrite !lookup_app_r by lia.
    replace (length init + 1 - length init) with 1 by lia.
    replace (length init + 0 - length init) with 0 by lia.
    cbn [lookup list_lookup mbind outcome_bind].
    rewrite bool_decide_eq_true_2, bool_decide_eq_false_2 by done.
    rewrite (cons_middle (reverse cur') init [[]]), app_assoc.
    rewrite take_app_length'; [done|]. rewrite length_app. simpl. lia. }
  destruct Ht as [-> | [-> | [-> | ->]]].
  - assert (Py.splitlines_go cur' [LF] = [reverse cur']) as -> by done. done.
  - assert (Py.splitlines_go cur' [CR; LF] = [reverse cur']) as -> by done. done.
  - assert (Py.splitlines_go cur' [LF; LF] = [reverse cur'; []]) as -> by done.
    apply Htwo.
  - assert (Py.splitlines_go cur' [CR; LF; CR; LF] = [reverse cur'; []]) as -> by done.
    apply Htwo.
Qed.

Lemma trailing_line_breaks_dropped_witness :
  Py.is_linebreak 46%N = false ∧
  clean_lines Sample.NEWLINE (lit "Hello world" ++ 46%N :: [CR; LF; CR; LF])
  = clean_lines Sample.NEWLINE (lit "Hello world" ++ [46%N]).
Proof.
  split; [reflexivity|].
  apply (trailing_line_breaks_dropped Sample.NEWLINE (lit "Hello world") 46%N);
    [reflexivity | by do 3 right].
Defined.

(** ** The name of the file written *)

Lemma rfind_from_absent c (s : str) : ∀ i, c ∉ s → PosixPath.rfind_from c i s = (-1)%Z.
Proof.
  induction s as [|x s IH]; intros i; [done|].
  intros [Hx Hs]%not_elem_of_cons. cbn [PosixPath.rfind_from]. rewrite IH by done.
  cbn. by assert ((x =? c)%N = false) as -> by (apply N.eqb_neq; congruence).
Qed.

Lemma rfind_from_last c (a b : str) : ∀ i,
  (0 ≤ i)%Z → c ∉ b → PosixPath.rfind_from c i (a ++ c :: b) = (i + Z.of_nat (length a))%Z.
Proof.
  induction a as [|x a IH]; intros i Hi Hb.
  - cbn [app PosixPath.rfind_from length]. rewrite rfind_from_absent by done.
    cbn. rewrite N.eqb_refl. lia.
  - cbn [app PosixPath.rfind_from length]. rewrite IH by (done || lia).
    destruct (Z.leb_spec 0 (i + 1 + Z.of_nat (length a))); lia.
Qed.

Lemma basename_plain (name : str) :
  PosixPath.SLASH ∉ name → PosixPath.basename name = name.
Proof.
  intros H. unfold PosixPath.basename, PosixPath.rfind. by rewrite rfind_from_absent.
Qed.

Lemma basename_dir (dir name : str) :
  PosixPath.SLASH ∉ name → PosixPath.basename (dir ++ PosixPath.SLASH :: name) = name.
Proof.
  intros H. unfold PosixPath.basename, PosixPath.rfind.
  rewrite rfind_from_last by done.
  replace (Z.to_nat (0 + Z.of_nat (length dir) + 1)) with (length (dir ++ [PosixPath.SLASH]))
    by (rewrite length_app; simpl; lia).
  by rewrite (cons_middle PosixPath.SLASH dir name), app_assoc, drop_app_length.
Qed.

Lemma basename_no_slash (p : str) : PosixPath.SLASH ∉ PosixPath.basename p.
Proof.
  destruct (decide (PosixPath.SLASH ∈ p)) as [(dir & name & -> & Hname)%list_elem_of_split_r|H].
  - by rewrite basename_dir.
  - by rewrite basename_plain.
Qed.

Lemma elem_of_splitext_root x (p : str) : x ∈ (PosixPath.splitext p).1 → x ∈ p.
Proof.
  unfold PosixPath.splitext. destruct (_ && _); [|done]. cbn [fst].
  apply subseteq_take.
Qed.

(** X14.  The name of the file written has no "/", whatever the path of
    the file read: the file is written in [args.dir] itself. *)
Theorem newfile_no_separator (file : str) : PosixPath.SLASH ∉ newfile file.
Proof.
  unfold newfile. apply not_elem_of_app. split; [|compute_done].
  intros H%elem_of_splitext_root. by apply basename_no_slash in H.
Qed.

Lemma name_before_dot_true x (stem : str) :
  x ∈ stem → x ≠ PosixPath.DOT → PosixPath.name_before_dot stem = true.
Proof.
  intros Hin Hx. induction stem as [|y stem IH]; [by apply elem_of_nil in Hin|].
  cbn [PosixPath.name_before_dot]. destruct (N.eqb_spec y PosixPath.DOT) as [->|]; [|done].
  cbn [negb]. apply IH. by apply elem_of_cons in Hin as [?|?].
Qed.

Lemma name_before_dot_dots (stem : str) :
  Forall (λ x, x = PosixPath.DOT) stem → PosixPath.name_before_dot stem = false.
Proof.
  induction 1 as [|x stem -> _ IH]; [done|]. cbn [PosixPath.name_before_dot].
  by rewrite N.eqb_refl.
Qed.

(** X15.  The name of the file written is the last component of the path
    with ".gmi" in place of its extension: for a component [stem.ext], with
    no dot in [ext] and a character other than the dot in [stem], it is
    [stem.gmi], with directories before it or without; a component without
    dot, or with dots at its beginning only, keeps its whole name before
    ".gmi", with directories before it or without. *)
Theorem newfile_replaces_extension (dir stem ext name dots : str) :
  (PosixPath.SLASH ∉ stem → PosixPath.SLASH ∉ ext → PosixPath.DOT ∉ ext →
   (∃ x, x ∈ stem ∧ x ≠ PosixPath.DOT) →
   newfile (dir ++ [PosixPath.SLASH] ++ stem ++ [PosixPath.DOT] ++ ext) = stem ++ lit ".gmi" ∧
   newfile (stem ++ [PosixPath.DOT] ++ ext) = stem ++ lit ".gmi") ∧
  (PosixPath.SLASH ∉ name → PosixPath.DOT ∉ name →
   Forall (λ x, x = PosixPath.DOT) dots →
   newfile (dir ++ [PosixPath.SLASH] ++ dots ++ name) = dots ++ name ++ lit ".gmi" ∧
   newfile (dots ++ name) = dots ++ name ++ lit ".gmi").
Proof.
  split.
  - intros Hstem Hext Hdot (x & Hx & Hxdot).
    assert (PosixPath.SLASH ∉ stem ++ [PosixPath.DOT] ++ ext) as Hslash.
    { rewrite !not_elem_of_app. split_and!; [done | compute_done | done]. }
    assert ((PosixPath.splitext (stem ++ [PosixPath.DOT] ++ ext)).1 = stem) as Hroot.
    { unfold PosixPath.splitext, PosixPath.rfind.
      rewrite (rfind_from_absent PosixPath.SLASH) by done.
      cbn [app]. rewrite rfind_from_last by done.
      replace (Z.to_nat (0 + Z.of_nat (length stem))) with (length stem) by lia.
      cbn [Z.add Z.to_nat Nat.sub]. rewrite drop_0, Nat.sub_0_r, !take_app_length.
      rewrite (name_before_dot_true x stem) by done.
      assert ((-1 <? 0 + Z.of_nat (length stem))%Z = true) as -> by (apply Z.ltb_lt; lia).
      done. }
    unfold newfile. split.
    + change ([PosixPath.SLASH] ++ stem ++ [PosixPath.DOT] ++ ext)
        with (PosixPath.SLASH :: (stem ++ [PosixPath.DOT] ++ ext)).
      by rewrite basename_dir, Hroot.
    + by rewrite basename_plain, Hroot.
  - intros Hslash Hdot Hdots.
    assert (PosixPath.SLASH ∉ dots ++ name) as Hs.
    { apply not_elem_of_app. split; [|done]. intros Hin.
      by pose proof (proj1 (Forall_forall _ _) Hdots _ Hin). }
    assert ((PosixPath.splitext (dots ++ name)).1 = dots ++ name) as Hroot; last first.
    { unfold newfile. split.
      - change ([PosixPath.SLASH] ++ dots ++ name) with (PosixPath.SLASH :: (dots ++ name)).
        by rewrite basename_dir, Hroot, <- app_assoc.
      - by rewrite basename_plain, Hroot, <- app_assoc. }
    unfold PosixPath.splitext, PosixPath.rfind.
    rewrite (rfind_from_absent PosixPath.SLASH) by done.
    destruct (decide (PosixPath.DOT ∈ dots ++ name))
      as [(front & back & E & Hback)%list_elem_of_split_r|Hnone].
    + rewrite E, rfind_from_last by done. rewrite <- E.
      cbn [Z.add Z.to_nat Nat.sub]. rewrite drop_0, Nat.sub_0_r.
      replace (Z.to_nat (0 + Z.of_nat (length front))) with (length front) by lia.
      assert (∃ rest, dots = front ++ PosixPath.DOT :: rest) as [rest Hrest].
      { clear -E Hdot Hback Hdots. revert front E.
        induction Hdots as [|d dots -> _ IH]; intros front E.
        - simpl in E. subst name. exfalso. apply Hdot, elem_of_app. right. by left.
        - destruct front as [|f front].
          + by exists dots.
          + simpl in E. injection E as <- E. destruct (IH front E) as [rest ->].
            by exists rest. }
      rewrite Hrest, <- !app_assoc, take_app_length.
      rewrite name_before_dot_dots; [by rewrite andb_false_r|].
      rewrite Hrest in Hdots. by apply Forall_app in Hdots as [? _].
    + by rewrite rfind_from_absent.
Qed.

Lemma newfile_replaces_extension_witness :
  ((PosixPath.SLASH ∉ lit "notes.2024") ∧ (PosixPath.SLASH ∉ lit "md") ∧
   (PosixPath.DOT ∉ lit "md")) ∧
  newfile (lit "docs/old" ++ [PosixPath.SLASH] ++ lit "notes.2024" ++ [PosixPath.DOT] ++ lit "md")
  = lit "notes.2024" ++ lit ".gmi".
Proof.
  split; [split_and!; compute_done|].
  refine (proj1 (proj1 (newfile_replaces_extension (lit "docs/old") (lit "notes.2024")
                          (lit "md") [] []) _ _ _ _)); try compute_done.
  exists 110%N. split; [compute_done | done].
Defined.

(** ** The lines of a paragraph *)

Lemma replace_one_app c new (a b : str) :
  Py.replace [c] new (a ++ b) = Py.replace [c] new a ++ Py.replace [c] new b.
Proof.
  induction a as [|x a IH]; [done|]. cbn [app]. rewrite !replace_one_cons, IH.
  destruct (c =? x)%N; [by rewrite app_assoc | done].
Qed.

Lemma replace_crlf_line (line rest : str) :
  CR ∉ line →
  Py.replace [CR; LF] [LF] (line ++ rest) = line ++ Py.replace [CR; LF] [LF] rest.
Proof.
  induction line as [|x line IH]; [done|]. intros [Hx Hline]%not_elem_of_cons.
  unfold Py.replace in *. cbn [app Py.replace_go Py.startswith].
  assert ((CR =? x)%N = false) as -> by (apply N.eqb_neq; congruence).
  cbn [andb]. by rewrite IH.
Qed.

Lemma fold_joined_lines (sep : str) (lines : list str) :
  sep = [LF] ∨ sep = [CR; LF] →
  Forall (λ line, ∀ x, x ∈ line → Py.is_linebreak x = false) lines →
  Py.replace [LF] [SP] (Py.replace [CR; LF] [LF] (Py.join sep lines)) = Py.join [SP] lines.
Proof.
  intros Hsep Hall.
  assert (∀ line : str,
            (∀ x, x ∈ line → Py.is_linebreak x = false) → (CR ∉ line) ∧ (LF ∉ line))
    as Hfree.
  { intros line Hline. split; intros H%Hline; done. }
  induction Hall as [|line lines Hline Hlines IH]; [done|].
  destruct (Hfree line Hline) as [Hcr Hlf].
  destruct lines as [|line' lines].
  - cbn [Py.join]. rewrite <- (app_nil_r line), replace_crlf_line by done.
    rewrite app_nil_r. change (Py.replace [CR; LF] [LF] []) with ([] : str).
    rewrite app_nil_r. by apply replace_one_none.
  - rewrite (join_cons_nonempty sep line), (join_cons_nonempty [SP] line) by done.
    rewrite replace_crlf_line by done.
    rewrite replace_one_app, (replace_one_none LF [SP] line) by done. f_equal.
    destruct Hsep as [-> | ->].
    + change ([LF] ++ Py.join [LF] (line' :: lines))
        with (LF :: Py.join [LF] (line' :: lines)).
      rewrite <- IH.
      change (Py.replace [CR; LF] [LF] (LF :: ?s)) with (LF :: Py.replace [CR; LF] [LF] s).
      by rewrite replace_one_cons, N.eqb_refl.
    + change ([CR; LF] ++ Py.join [CR; LF] (line' :: lines))
        with (CR :: LF :: Py.join [CR; LF] (line' :: lines)).
      rewrite <- IH.
      change (Py.replace [CR; LF] [LF] (CR :: LF :: ?s))
        with (LF :: Py.replace [CR; LF] [LF] s).
      by rewrite replace_one_cons, N.eqb_refl.
Qed.

(** X16.  A paragraph whose text, stripped, is lines separated by [\n], or
    by [\r\n], resolves to these lines separated by one space each, then two
    line breaks: the paragraph is one line of the result. *)
Theorem paragraph_lines_folded NEWLINE pd (a b c sep : str) (lines : list str) :
  pd ∉ a → pd ∉ b →
  Py.strip b = Py.join sep lines → sep = [LF] ∨ sep = [CR; LF] →
  Forall (λ line, ∀ x, x ∈ line → Py.is_linebreak x = false) lines →
  paragraph_step NEWLINE [pd] (a ++ [pd] ++ b ++ [pd] ++ c)
  = Ok (a ++ (Py.join [SP] lines ++ NEWLINE ++ NEWLINE) ++ c).
Proof.
  intros Ha Hb Hstrip Hsep Hlines.
  pose proof (paragraph_step_pair NEWLINE pd a b c Ha Hb) as Hstep.
  rewrite Hstrip, fold_joined_lines in Hstep by done. exact Hstep.
Qed.

Lemma paragraph_lines_folded_witness :
  Py.strip (lit " one" ++ [CR; LF] ++ lit "two" ++ [CR; LF] ++ lit "three" ++ [LF])
    = Py.join [CR; LF] [lit "one"; lit "two"; lit "three"] ∧
  paragraph_step Sample.NEWLINE [2%N]
    (lit "# T" ++ [2%N] ++ (lit " one" ++ [CR; LF] ++ lit "two" ++ [CR; LF] ++ lit "three" ++
                           [LF]) ++ [2%N] ++ lit "rest")
  = Ok (lit "# T" ++ (lit "one two three" ++ [CR; LF] ++ [CR; LF]) ++ lit "rest").
Proof.
  split; [reflexivity|].
  refine (paragraph_lines_folded Sample.NEWLINE 2%N (lit "# T") _ (lit "rest") [CR; LF]
            [lit "one"; lit "two"; lit "three"] _ _ _ _ _).
  - compute_done.
  - compute_done.
  - reflexivity.
  - by right.
  - repeat constructor; intros x Hx;
      repeat (apply elem_of_cons in Hx as [->|Hx]; [reflexivity|]);
      by apply elem_of_nil in Hx.
Defined.

(** ** Sentinel closure *)

(** C2 as the specification words it fails in the at-end mode: the footnote
    block is put after the text once the paragraph loop is over, and a
    paragraph marker in it is in the result. *)
Lemma C2_counterexample :
  ¬ (∀ (gem footnotes : options → str → str) (fuel : nat) (markdown : str) (opts : options)
       (frontmatter jekyll : bool) (out : str),
       md2gemini Sample.NEWLINE Sample.PARAGRAPH_DELIM Sample.LINK_DELIM gem footnotes
         fuel markdown opts frontmatter jekyll = Ok out →
       Py.count out Sample.PARAGRAPH_DELIM = 0 ∧ Py.count out Sample.LINK_DELIM = 0).
Proof.
  intros H.
  destruct (H (Sample.renders (lit "text [1]")) (λ _ _, lit "=> u" ++ [2%N] ++ lit " 1: u")
              0 (lit "text") (Sample.opts (lit "at-end")) false false
              (lit "text [1]" ++ [CR; LF] ++ lit "=> u" ++ [2%N] ++ lit " 1: u") eq_refl)
    as [Hpd _].
  vm_compute in Hpd. discriminate Hpd.
Qed.

(** C2, amended.  For markers of one character outside a non-empty
    [NEWLINE], the paragraph marker neither [\n] nor a space and the link
    marker not [\n]: when the pre-processing returns, the loop has
    iterations enough for the markers of the rendered text, and that text
    is not empty or the mode is at-end, [md2gemini] returns a text; the text
    has no link marker; and it has no paragraph marker unless the mode is
    at-end and the footnote block, which is joined after the paragraph loop,
    has one. *)
Theorem C2_sentinel_closure NEWLINE pd ld gem footnotes fuel (markdown md : str) opts
    frontmatter jekyll :
  pd ∉ NEWLINE → pd ≠ LF → pd ≠ SP → ld ∉ NEWLINE → ld ≠ LF → NEWLINE ≠ [] →
  preprocess frontmatter jekyll markdown = Ok md →
  Py.count (gem opts md) [pd] ≤ fuel →
  gem opts md ≠ [] ∨ links opts = lit "at-end" →
  ∃ out,
    md2gemini NEWLINE [pd] [ld] gem footnotes fuel markdown opts frontmatter jekyll = Ok out ∧
    Py.count out [ld] = 0 ∧
    ((links opts = lit "at-end" → pd ∉ footnotes opts md) → Py.count out [pd] = 0).
Proof.
  intros Hpd Hlf Hsp Hld Hldlf Hne Hpre Hfuel Hcase.
  unfold md2gemini. rewrite Hpre. cbn [mbind outcome_bind]. unfold postprocess.
  destruct (resolve_terminates NEWLINE pd Hpd Hlf Hsp _ (gem opts md) (le_n _))
    as (g1 & Hg1 & Hres).
  specialize (Hres fuel Hfuel). rewrite Hres. cbn [mbind outcome_bind].
  set (g2 := add_footnotes NEWLINE (links opts) (footnotes opts md) g1).
  assert (g2 ≠ []) as Hg2.
  { subst g2. unfold add_footnotes. case_bool_decide as Hlinks.
    - destruct g1; by destruct NEWLINE.
    - destruct Hcase as [Hgem|?]; [|done].
      destruct (decide (pd ∈ gem opts md)) as [Hin|Hout].
      + destruct NEWLINE as [|x nl] eqn:E; [done|]. rewrite <- E in *.
        assert (x ∈ g1) as Hx.
        { eapply (resolve_newline NEWLINE pd); [done..|]. rewrite E. by left. }
        intros ->. by apply elem_of_nil in Hx.
      + rewrite resolve_absent in Hres by done. by injection Hres as <-. }
  destruct (clean_lines_ok NEWLINE (resolve_links NEWLINE [ld] g2)) as (out & Hout).
  { by apply resolve_links_nonempty. }
  exists out. split; [done|]. rewrite !count_one_absent.
  assert (ld ∉ out) as Hldout.
  { intros [H|H]%(clean_lines_elem _ _ _ _ Hout); [|done].
    by apply resolve_links_absent in H. }
  split; [done|]. intros Hfn.
  assert (pd ∉ g2) as Hpd2.
  { subst g2. unfold add_footnotes. case_bool_decide as Hlinks; [|done].
    rewrite !not_elem_of_app. split_and!; try done. by apply Hfn. }
  intros [H|H]%(clean_lines_elem _ _ _ _ Hout); [|done].
  pose proof H as [H'|[H'|H']]%elem_of_resolve_links; [done..|].
  subst pd. by apply resolve_links_absent in H.
Qed.

Lemma C2_sentinel_closure_witness :
  ((2%N ∉ Sample.NEWLINE) ∧ 2%N ≠ LF ∧ 2%N ≠ SP ∧ (3%N ∉ Sample.NEWLINE) ∧ 3%N ≠ LF ∧
   Sample.NEWLINE ≠ [] ∧
   preprocess false false (lit "see [link](u) now" ++ [LF; LF] ++ lit "end")
     = Ok (lit "see [link](u) now" ++ [LF; LF] ++ lit "end")) ∧
  ∃ out,
    md2gemini Sample.NEWLINE [2%N] [3%N]
      (Sample.renders ([2%N] ++ lit "see" ++ [3%N] ++ lit "=> u link" ++ [3%N] ++ lit "now" ++
                       [2%N] ++ [2%N] ++ lit "end" ++ [2%N]))
      Sample.no_footnotes 4 (lit "see [link](u) now" ++ [LF; LF] ++ lit "end")
      (Sample.opts (lit "newline")) false false = Ok out ∧
    Py.count out [3%N] = 0 ∧
    ((links (Sample.opts (lit "newline")) = lit "at-end" →
      2%N ∉ Sample.no_footnotes (Sample.opts (lit "newline"))
              (lit "see [link](u) now" ++ [LF; LF] ++ lit "end")) →
     Py.count out [2%N] = 0).
Proof.
  split; [split_and!; (done || compute_done)|].
  refine (C2_sentinel_closure Sample.NEWLINE 2%N 3%N
    (Sample.renders ([2%N] ++ lit "see" ++ [3%N] ++ lit "=> u link" ++ [3%N] ++ lit "now" ++
                     [2%N] ++ [2%N] ++ lit "end" ++ [2%N]))
    Sample.no_footnotes 4 (lit "see [link](u) now" ++ [LF; LF] ++ lit "end")
    (lit "see [link](u) now" ++ [LF; LF] ++ lit "end")
    (Sample.opts (lit "newline")) false false _ _ _ _ _ _ _ _ _).
  - compute_done.
  - done.
  - done.
  - compute_done.
  - done.
  - done.
  - reflexivity.
  - vm_compute. lia.
  - by left.
Defined.
